(** * Two-member Bateman decay model of [decay.py]

    A shallow embedding of the numerical core of [decay.py]: the
    population function [calculate_nuclei_population], the activity
    function [calculate_activity], the module-level evaluation of the
    chain U-234 -> Th-230 -> Ra-226 -> Rn-222, and the two quotients the
    script prints for the secular equilibrium.

    Numbers.  The script computes with IEEE double precision numbers and
    Python integers.  They are idealised here as the real numbers of the
    Standard Library: rounding, overflow and the special values of the
    format are outside the model.  The one place where the format has no
    real counterpart, a division by zero, is kept as an explicit outcome
    ([DivideByZero]) of the division.

    Machine numbers.  Where a property turns on rounding, the population
    function is embedded a second time at the types of one call: Python
    integers as [Z], doubles as the binary64 numbers of [SpecFloat] with
    their rounded operations, the conversion of an integer to a double
    rounded to nearest even, and numpy's [exp] as a parameter.

    Arrays.  A numpy operand is a scalar or a one-dimensional array, and
    every binary operator broadcasts: a scalar pairs with each element of
    an array, two arrays of equal length pair index by index, an array
    of length one pairs with each element of the other, and any other
    pair of lengths is refused ([ValueError]). *)

From Stdlib Require Import Reals Lra Lia List ZArith Bool SpecFloat.
Import ListNotations.

Set Implicit Arguments.
Local Open Scope R_scope.

(** ** Outcomes of an evaluation *)

Module Outcome.

(** What can stop the evaluation of an arithmetic expression of the
    script.  [ValueError]: numpy cannot broadcast the two operands.
    [DivideByZero]: a divisor is zero (a Python float raises
    ZeroDivisionError; a numpy double raises the divide flag and yields
    an infinity or a NaN, which no real number stands for). *)
Inductive exn : Type :=
| ValueError
| DivideByZero.

Inductive result (A : Type) : Type :=
| Ok (a : A)
| Err (e : exn).

Arguments Err {A} e.

Definition bind {A B : Type} (m : result A) (k : A -> result B) : result B :=
  match m with
  | Ok a => k a
  | Err e => Err e
  end.

Definition is_ok {A : Type} (m : result A) : bool :=
  match m with
  | Ok _ => true
  | Err _ => false
  end.

End Outcome.

Export Outcome.

Declare Scope outcome_scope.
Delimit Scope outcome_scope with outcome.
Notation "x <- m ;; k" := (bind m (fun x => k))
  (at level 61, m at next level, right associativity) : outcome_scope.
Notation "' pat <- m ;; k" := (bind m (fun x => match x with pat => k end))
  (at level 61, pat pattern, m at next level, right associativity) : outcome_scope.
Local Open Scope outcome_scope.

(** ** numpy operands and broadcasting *)

Inductive value : Type :=
| Scalar (x : R)
| Array (xs : list R).

(** Index-by-index pairing of two arrays. *)
Fixpoint map2 (f : R -> R -> R) (xs ys : list R) : list R :=
  match xs, ys with
  | x :: xs', y :: ys' => f x y :: map2 f xs' ys'
  | _, _ => []
  end.

(** A binary numpy operator on operands of dimension at most one. *)
Definition broadcast (f : R -> R -> R) (a b : value) : result value :=
  match a, b with
  | Scalar x, Scalar y => Ok (Scalar (f x y))
  | Scalar x, Array ys => Ok (Array (map (f x) ys))
  | Array xs, Scalar y => Ok (Array (map (fun x => f x y) xs))
  | Array xs, Array ys =>
      if Nat.eqb (length xs) (length ys) then Ok (Array (map2 f xs ys))
      else
        match xs, ys with
        | [x], _ => Ok (Array (map (f x) ys))
        | _, [y] => Ok (Array (map (fun x => f x y) xs))
        | _, _ => Err ValueError
        end
  end.

(** A unary numpy function, element by element. *)
Definition elementwise (f : R -> R) (a : value) : value :=
  match a with
  | Scalar x => Scalar (f x)
  | Array xs => Array (map f xs)
  end.

(** The test [x == 0] on reals, as a boolean. *)
Definition Rzerob (x : R) : bool :=
  if Req_dec_T x 0 then true else false.

(** The test [x != y] of the source, as a boolean. *)
Definition Rneqb (x y : R) : bool :=
  if Req_dec_T x y then false else true.

Definition has_zero (a : value) : bool :=
  match a with
  | Scalar x => Rzerob x
  | Array xs => existsb Rzerob xs
  end.

Definition np_mul : value -> value -> result value := broadcast Rmult.
Definition np_add : value -> value -> result value := broadcast Rplus.
Definition np_sub : value -> value -> result value := broadcast Rminus.

(** [a / b]: the shapes are matched first, then every divisor is
    inspected. *)
Definition np_div (a b : value) : result value :=
  q <- broadcast Rdiv a b ;;
  if has_zero b then Err DivideByZero else Ok q.

Definition np_exp : value -> value := elementwise exp.

(** Division of two scalars of the script. *)
Definition float_div (x y : R) : result R :=
  if Rzerob y then Err DivideByZero else Ok (x / y).

(** ** The two functions of the script *)

(** [calculate_nuclei_population(t, lambda_parent, lambda_daughter,
    N0_parent, N0_daughter)].  The two decay constants are scalars (they
    are compared with [!=] in an [if]); [t], [N0_parent] and
    [N0_daughter] are numpy operands.  The result is the pair
    [(N_parent, N_daughter)]. *)
Definition calculate_nuclei_population
    (t : value) (lambda_parent lambda_daughter : R)
    (N0_parent N0_daughter : value) : result (value * value) :=
  (* N_parent = N0_parent * np.exp(-lambda_parent * t) *)
  a <- np_mul (Scalar (- lambda_parent)) t ;;
  N_parent <- np_mul N0_parent (np_exp a) ;;
  if Rneqb lambda_parent lambda_daughter then
    (* (lambda_parent * N0_parent / (lambda_daughter - lambda_parent)) *)
    n <- np_mul (Scalar lambda_parent) N0_parent ;;
    c <- np_div n (Scalar (lambda_daughter - lambda_parent)) ;;
    (* (np.exp(-lambda_parent * t) - np.exp(-lambda_daughter * t)) *)
    ap <- np_mul (Scalar (- lambda_parent)) t ;;
    ad <- np_mul (Scalar (- lambda_daughter)) t ;;
    d <- np_sub (np_exp ap) (np_exp ad) ;;
    growth <- np_mul c d ;;
    (* N0_daughter * np.exp(-lambda_daughter * t) *)
    ad' <- np_mul (Scalar (- lambda_daughter)) t ;;
    rest <- np_mul N0_daughter (np_exp ad') ;;
    N_daughter <- np_add growth rest ;;
    Ok (N_parent, N_daughter)
  else
    (* lambda_parent * N0_parent * t * np.exp(-lambda_parent * t) *)
    n <- np_mul (Scalar lambda_parent) N0_parent ;;
    nt <- np_mul n t ;;
    ap <- np_mul (Scalar (- lambda_parent)) t ;;
    growth <- np_mul nt (np_exp ap) ;;
    (* N0_daughter * np.exp(-lambda_parent * t) *)
    ap' <- np_mul (Scalar (- lambda_parent)) t ;;
    rest <- np_mul N0_daughter (np_exp ap') ;;
    N_daughter <- np_add growth rest ;;
    Ok (N_parent, N_daughter).


(** [calculate_activity(N, lambda_decay)]: [lambda_decay * N]. *)
Definition calculate_activity (N : value) (lambda_decay : R) : result value :=
  np_mul (Scalar lambda_decay) N.

(** ** Module-level data of the script *)

(** [np.linspace(start, stop, num)]: [num] evenly spaced samples, the
    two ends included. *)
Definition linspace (start stop : R) (num : nat) : list R :=
  match num with
  | O => []
  | S O => [start]
  | S (S _) =>
      map (fun i => INR i * ((stop - start) / INR (num - 1)) + start) (seq 0 num)
  end.

(** Half-lives, in years. *)
Definition T_half_U234 : R := 245500.
Definition T_half_Th230 : R := 75380.
Definition T_half_Ra226 : R := 1600.
Definition T_half_Rn222 : R := 3.82 / 365.

(** Decay constants. *)
Definition lambda_U234 : R := ln 2 / T_half_U234.
Definition lambda_Th230 : R := ln 2 / T_half_Th230.
Definition lambda_Ra226 : R := ln 2 / T_half_Ra226.
Definition lambda_Rn222 : R := ln 2 / T_half_Rn222.

(** Initial populations. *)
Definition N0_U234 : R := 100000.
Definition N0_Th230 : R := 0.
Definition N0_Ra226 : R := 0.
Definition N0_Rn222 : R := 0.

(** Time, in years. *)
#[warnings="-abstract-large-number"]
Definition grid_points : nat := 10000.
Definition t_grid : list R := linspace 0 500000 grid_points.
Definition t : value := Array t_grid.

(** The six arrays bound by the three chained calls. *)
Record populations : Type := Populations {
  N_U234 : value;
  N_Th230 : value;
  N_Th230_from_U : value;
  N_Ra226 : value;
  N_Ra226_from_Th : value;
  N_Rn222 : value
}.

(** The three calls, each on the time grid [tv], for the decay
    constants [l1 .. l4] and the initial counts [n1 .. n4] of the four
    nuclides. *)
Definition chain_evaluation (tv : value) (l1 l2 l3 l4 n1 n2 n3 n4 : R)
  : result populations :=
  '(pU, dTh) <- calculate_nuclei_population tv l1 l2 (Scalar n1) (Scalar n2) ;;
  '(pTh, dRa) <- calculate_nuclei_population tv l2 l3 dTh (Scalar n3) ;;
  '(pRa, dRn) <- calculate_nuclei_population tv l3 l4 dRa (Scalar n4) ;;
  Ok (Populations pU dTh pTh dRa pRa dRn).

(** The evaluation the script performs. *)
Definition script_populations : result populations :=
  chain_evaluation t lambda_U234 lambda_Th230 lambda_Ra226 lambda_Rn222
                   N0_U234 N0_Th230 N0_Ra226 N0_Rn222.

(** ** Activities of the script *)

(** The four arrays bound by the four calls of [calculate_activity]. *)
Record activities : Type := Activities {
  A_U234 : value;
  A_Th230 : value;
  A_Ra226 : value;
  A_Rn222 : value
}.

(** The four calls, on the populations [p] of the chain: U-234, Th-230
    and Rn-222 are read from the series [N_U234], [N_Th230] and
    [N_Rn222]; Ra-226 is read from [N_Ra226_from_Th], the parent series
    returned by the third link. *)
Definition activity_evaluation (p : populations) (l1 l2 l3 l4 : R)
  : result activities :=
  aU <- calculate_activity (N_U234 p) l1 ;;
  aTh <- calculate_activity (N_Th230 p) l2 ;;
  aRa <- calculate_activity (N_Ra226_from_Th p) l3 ;;
  aRn <- calculate_activity (N_Rn222 p) l4 ;;
  Ok (Activities aU aTh aRa aRn).

Definition script_activities : result activities :=
  p <- script_populations ;;
  activity_evaluation p lambda_U234 lambda_Th230 lambda_Ra226 lambda_Rn222.

(** ** Secular equilibrium *)

(** The script prints three activity ratios, each the quotient of the
    daughter's decay constant by the parent's. *)
Definition equilibriumRatio (lambda_parent lambda_daughter : R) : result R :=
  float_div lambda_daughter lambda_parent.

(** The script computes three times, each [-np.log(0.01) / lambda] for
    the decay constant of the parent. *)
Definition timeTo99PercentEquilibrium (lambda_parent : R) : result R :=
  float_div (- ln 0.01) lambda_parent.

Definition t_equilibrium_Th : result R := timeTo99PercentEquilibrium lambda_U234.
Definition t_equilibrium_Ra : result R := timeTo99PercentEquilibrium lambda_Th230.
Definition t_equilibrium_Rn : result R := timeTo99PercentEquilibrium lambda_Ra226.

(** ** The closed forms of the specification *)

(** The parent's exponential decay. *)
Definition parent_form (lambda_parent N0_parent time : R) : R :=
  N0_parent * exp (- lambda_parent * time).

(** The two-member Bateman solution for distinct decay constants. *)
Definition bateman_general
    (lambda_parent lambda_daughter N0_parent N0_daughter time : R) : R :=
  (lambda_parent * N0_parent / (lambda_daughter - lambda_parent))
  * (exp (- lambda_parent * time) - exp (- lambda_daughter * time))
  + N0_daughter * exp (- lambda_daughter * time).

(** Its limit for equal decay constants. *)
Definition bateman_degenerate
    (lambda_parent N0_parent N0_daughter time : R) : R :=
  lambda_parent * N0_parent * time * exp (- lambda_parent * time)
  + N0_daughter * exp (- lambda_parent * time).

(** The daughter value the function computes: the branch is chosen by
    the exact test of the source. *)
Definition daughter_form
    (lambda_parent lambda_daughter N0_parent N0_daughter time : R) : R :=
  if Rneqb lambda_parent lambda_daughter
  then bateman_general lambda_parent lambda_daughter N0_parent N0_daughter time
  else bateman_degenerate lambda_parent N0_parent N0_daughter time.

(** ** Operands read along a time grid *)

(** An operand aligned with a grid [ts] is a constant, or a series whose
    entry at each index is a function of the time sampled there. *)
Module Aligned.

Inductive operand : Type :=
| Const (c : R)
| Along (g : R -> R).

Definition at_time (p : operand) (time : R) : R :=
  match p with
  | Const c => c
  | Along g => g time
  end.

Definition spread (ts : list R) (p : operand) : value :=
  match p with
  | Const c => Scalar c
  | Along g => Array (map g ts)
  end.

Definition lift1 (f : R -> R) (p : operand) : operand :=
  match p with
  | Const c => Const (f c)
  | Along g => Along (fun time => f (g time))
  end.

Definition lift2 (f : R -> R -> R) (p q : operand) : operand :=
  match p, q with
  | Const c, Const d => Const (f c d)
  | _, _ => Along (fun time => f (at_time p time) (at_time q time))
  end.

End Aligned.

Import Aligned.

(** The three series of the function, as aligned operands built from
    the aligned arguments [time], [N0_parent] and [N0_daughter]. *)
Definition parent_series (lambda_parent : R) (time N0_parent : operand) : operand :=
  lift2 Rmult N0_parent (lift1 exp (lift2 Rmult (Const (- lambda_parent)) time)).

Definition general_series (lambda_parent lambda_daughter : R)
    (time N0_parent N0_daughter : operand) : operand :=
  lift2 Rplus
    (lift2 Rmult
       (lift2 Rdiv (lift2 Rmult (Const lambda_parent) N0_parent)
                   (Const (lambda_daughter - lambda_parent)))
       (lift2 Rminus
          (lift1 exp (lift2 Rmult (Const (- lambda_parent)) time))
          (lift1 exp (lift2 Rmult (Const (- lambda_daughter)) time))))
    (lift2 Rmult N0_daughter
       (lift1 exp (lift2 Rmult (Const (- lambda_daughter)) time))).

Definition degenerate_series (lambda_parent : R)
    (time N0_parent N0_daughter : operand) : operand :=
  lift2 Rplus
    (lift2 Rmult
       (lift2 Rmult (lift2 Rmult (Const lambda_parent) N0_parent) time)
       (lift1 exp (lift2 Rmult (Const (- lambda_parent)) time)))
    (lift2 Rmult N0_daughter
       (lift1 exp (lift2 Rmult (Const (- lambda_parent)) time))).

(** ** The population function on Python integers and doubles *)

(** What Python raises in the arithmetic of the function. *)
Inductive py_exception : Type :=
| ZeroDivisionError
| OverflowError.

Inductive evaluation (A : Type) : Type :=
| Returns (a : A)
| Raises (e : py_exception).

Arguments Returns {A} a.
Arguments Raises {A} e.

Definition and_then {A B : Type} (m : evaluation A) (k : A -> evaluation B)
  : evaluation B :=
  match m with
  | Returns a => k a
  | Raises e => Raises e
  end.

Notation "x <~ m ;; k" := (and_then m (fun x => k))
  (at level 61, m at next level, right associativity) : outcome_scope.

(** binary64: 53 bits of precision, exponents below 1024. *)
Definition double : Type := spec_float.
Definition fmul : double -> double -> double := SFmul 53 1024.
Definition fadd : double -> double -> double := SFadd 53 1024.
Definition fsub : double -> double -> double := SFsub 53 1024.
Definition fdiv : double -> double -> double := SFdiv 53 1024.
Definition fneg : double -> double := SFopp.

(** [float(z)], as every mixed operation [int op float] converts its
    integer operand: the nearest double, ties to even; an integer that
    rounds beyond the largest double raises OverflowError. *)
Definition float_of_int (z : Z) : evaluation double :=
  match binary_normalize 53 1024 z 0 false with
  | S754_infinity _ => Raises OverflowError
  | f => Returns f
  end.

(** [z != f] for an integer and a double: Python compares the two exact
    values, without converting the integer. *)
Definition int_ne_float (z : Z) (f : double) : bool :=
  match f with
  | S754_zero _ => negb (z =? 0)%Z
  | S754_finite s m e =>
      let v := cond_Zopp s (Zpos m) in
      if (0 <=? e)%Z then negb (z =? v * 2 ^ e)%Z
      else negb (z * 2 ^ (- e) =? v)%Z
  | S754_infinity _ => true
  | S754_nan => true
  end.

Definition is_zero (f : double) : bool :=
  match f with
  | S754_zero _ => true
  | _ => false
  end.

(** [x / y] on doubles: a zero divisor raises ZeroDivisionError. *)
Definition float_truediv (x y : double) : evaluation double :=
  if is_zero y then Raises ZeroDivisionError else Returns (fdiv x y).

(** [calculate_nuclei_population(t, lambda_parent, lambda_daughter,
    N0_parent, N0_daughter)] for a double [t], an integer
    [lambda_parent], a double [lambda_daughter] and integer counts.
    Products of two integers are exact; an integer meeting a double is
    converted first; [np_exp64] is numpy's [exp] on a double. *)
Definition calculate_nuclei_population_int_float
    (np_exp64 : double -> double)
    (t : double) (lambda_parent : Z) (lambda_daughter : double)
    (N0_parent N0_daughter : Z) : evaluation (double * double) :=
  (* N_parent = N0_parent * np.exp(-lambda_parent * t) *)
  a <~ float_of_int (- lambda_parent) ;;
  let e := np_exp64 (fmul a t) in
  n0p <~ float_of_int N0_parent ;;
  let N_parent := fmul n0p e in
  if int_ne_float lambda_parent lambda_daughter then
    (* (lambda_parent * N0_parent / (lambda_daughter - lambda_parent)) *)
    let n := (lambda_parent * N0_parent)%Z in
    lp <~ float_of_int lambda_parent ;;
    let d := fsub lambda_daughter lp in
    nf <~ float_of_int n ;;
    c <~ float_truediv nf d ;;
    (* (np.exp(-lambda_parent * t) - np.exp(-lambda_daughter * t)) *)
    ap <~ float_of_int (- lambda_parent) ;;
    let ep := np_exp64 (fmul ap t) in
    let ed := np_exp64 (fmul (fneg lambda_daughter) t) in
    let growth := fmul c (fsub ep ed) in
    (* N0_daughter * np.exp(-lambda_daughter * t) *)
    let ed' := np_exp64 (fmul (fneg lambda_daughter) t) in
    n0d <~ float_of_int N0_daughter ;;
    Returns (N_parent, fadd growth (fmul n0d ed'))
  else
    (* lambda_parent * N0_parent * t * np.exp(-lambda_parent * t) *)
    let n := (lambda_parent * N0_parent)%Z in
    nf <~ float_of_int n ;;
    let nt := fmul nf t in
    ap <~ float_of_int (- lambda_parent) ;;
    let growth := fmul nt (np_exp64 (fmul ap t)) in
    (* N0_daughter * np.exp(-lambda_parent * t) *)
    ap' <~ float_of_int (- lambda_parent) ;;
    let ep' := np_exp64 (fmul ap' t) in
    n0d <~ float_of_int N0_daughter ;;
    Returns (N_parent, fadd growth (fmul n0d ep')).

(** The double [2.0 ** 53]. *)
Definition two_pow_53 : double := S754_finite false 4503599627370496 1.

(** ** Lower bounds on the exponential, in fixed point

    A non-negative integer [c] stands for the real [c / scale].
    [square_down k c] squares [k] times, rounding down each time. *)
Definition scale : Z := 1000000000000000.

Fixpoint square_down (k : nat) (c : Z) : Z :=
  match k with
  | O => c
  | S k' => square_down k' (c * c / scale)
  end.

(** ** Elementary facts *)

Lemma Rneqb_true (x y : R) : x <> y -> Rneqb x y = true.
Proof. intros H. unfold Rneqb. destruct (Req_dec_T x y); [contradiction|reflexivity]. Qed.

Lemma Rneqb_false (x : R) : Rneqb x x = false.
Proof. unfold Rneqb. destruct (Req_dec_T x x); [reflexivity|contradiction]. Qed.

Lemma Rzerob_false (x : R) : x <> 0 -> Rzerob x = false.
Proof. intros H. unfold Rzerob. destruct (Req_dec_T x 0); [contradiction|reflexivity]. Qed.

Lemma Rzerob_true : Rzerob 0 = true.
Proof. unfold Rzerob. destruct (Req_dec_T 0 0); [reflexivity|contradiction]. Qed.

Lemma float_div_ok (x y : R) : y <> 0 -> float_div x y = Ok (x / y).
Proof. intros H. unfold float_div. now rewrite Rzerob_false. Qed.

Lemma float_div_zero (x : R) : float_div x 0 = Err DivideByZero.
Proof. unfold float_div. now rewrite Rzerob_true. Qed.

Lemma map2_map (f : R -> R -> R) (g h : R -> R) (ts : list R) :
  map2 f (map g ts) (map h ts) = map (fun time => f (g time) (h time)) ts.
Proof.
  induction ts as [|time ts IH]; simpl; [reflexivity|].
  now rewrite IH.
Qed.

(** ** The model on small inputs *)

Example broadcast_equal_lengths :
  np_add (Array [1; 2]) (Array [10; 20]) = Ok (Array [1 + 10; 2 + 20]).
Proof. reflexivity. Qed.

Example broadcast_length_one :
  np_mul (Array [2]) (Array [1; 2; 3]) = Ok (Array [2 * 1; 2 * 2; 2 * 3]).
Proof. reflexivity. Qed.

Example broadcast_mismatch :
  np_mul (Array [1; 2; 3]) (Array [1; 2]) = Err ValueError.
Proof. reflexivity. Qed.

Example calculate_mismatch :
  calculate_nuclei_population (Array [0; 1; 2]) 1 2 (Array [5; 6]) (Scalar 0)
  = Err ValueError.
Proof. reflexivity. Qed.

Example np_div_by_zero :
  np_div (Array [1; 2]) (Array [4; 0]) = Err DivideByZero.
Proof.
  unfold np_div. cbn [broadcast length Nat.eqb bind has_zero existsb].
  rewrite Rzerob_true. now rewrite orb_true_r.
Qed.

Example ratio_zero_parent : equilibriumRatio 0 1 = Err DivideByZero.
Proof. apply float_div_zero. Qed.

Example linspace_three : linspace 0 10 3 = [0; 5; 10].
Proof.
  unfold linspace. cbn [seq map Nat.sub INR].
  f_equal; [lra|]. f_equal; [lra|]. f_equal. lra.
Qed.

(** ** numpy operators on aligned operands *)

Lemma broadcast_spread (f : R -> R -> R) (ts : list R) (p q : operand) :
  broadcast f (spread ts p) (spread ts q) = Ok (spread ts (lift2 f p q)).
Proof.
  destruct p as [c|g], q as [d|h]; simpl.
  - reflexivity.
  - now rewrite map_map.
  - now rewrite map_map.
  - rewrite !length_map, Nat.eqb_refl.
    now rewrite map2_map.
Qed.

Lemma elementwise_spread (f : R -> R) (ts : list R) (p : operand) :
  elementwise f (spread ts p) = spread ts (lift1 f p).
Proof.
  destruct p as [c|g]; simpl; [reflexivity|].
  now rewrite map_map.
Qed.

Lemma spread_grid (ts : list R) : Array ts = spread ts (Along (fun time => time)).
Proof. simpl. now rewrite map_id. Qed.

Lemma np_div_scalar (ts : list R) (p : operand) (d : R) :
  d <> 0 ->
  np_div (spread ts p) (Scalar d) = Ok (spread ts (lift2 Rdiv p (Const d))).
Proof.
  intros Hd. unfold np_div.
  change (Scalar d) with (spread ts (Const d)) at 1.
  rewrite broadcast_spread. simpl.
  now rewrite Rzerob_false.
Qed.

(** ** The function on aligned operands *)

Section Calculate.

Variable ts : list R.
Variables lambda_parent lambda_daughter : R.
Variables time N0_parent N0_daughter : operand.

Ltac run :=
  repeat first
    [ rewrite broadcast_spread
    | rewrite elementwise_spread
    | rewrite np_div_scalar by assumption
    | progress cbn [bind] ].

Lemma calculate_general :
  lambda_parent <> lambda_daughter ->
  calculate_nuclei_population (spread ts time) lambda_parent lambda_daughter
                              (spread ts N0_parent) (spread ts N0_daughter)
  = Ok (spread ts (parent_series lambda_parent time N0_parent),
        spread ts (general_series lambda_parent lambda_daughter
                                  time N0_parent N0_daughter)).
Proof.
  intros Hne.
  assert (Hd : lambda_daughter - lambda_parent <> 0) by lra.
  unfold calculate_nuclei_population, np_mul, np_add, np_sub, np_exp.
  rewrite (Rneqb_true Hne).
  change (Scalar (- lambda_parent)) with (spread ts (Const (- lambda_parent))).
  change (Scalar (- lambda_daughter)) with (spread ts (Const (- lambda_daughter))).
  change (Scalar lambda_parent) with (spread ts (Const lambda_parent)).
  run. reflexivity.
Qed.

Lemma calculate_degenerate :
  lambda_parent = lambda_daughter ->
  calculate_nuclei_population (spread ts time) lambda_parent lambda_daughter
                              (spread ts N0_parent) (spread ts N0_daughter)
  = Ok (spread ts (parent_series lambda_parent time N0_parent),
        spread ts (degenerate_series lambda_parent time N0_parent N0_daughter)).
Proof.
  intros Heq. rewrite <- Heq.
  unfold calculate_nuclei_population, np_mul, np_add, np_sub, np_exp.
  rewrite Rneqb_false.
  change (Scalar (- lambda_parent)) with (spread ts (Const (- lambda_parent))).
  change (Scalar lambda_parent) with (spread ts (Const lambda_parent)).
  run. reflexivity.
Qed.

End Calculate.

(** ** The function on a time grid *)

Lemma daughter_form_general (lp ld n0p n0d time : R) :
  lp <> ld -> daughter_form lp ld n0p n0d time = bateman_general lp ld n0p n0d time.
Proof. intros H. unfold daughter_form. now rewrite Rneqb_true. Qed.

Lemma daughter_form_degenerate (lp n0p n0d time : R) :
  daughter_form lp lp n0p n0d time = bateman_degenerate lp n0p n0d time.
Proof. unfold daughter_form. now rewrite Rneqb_false. Qed.

(** A grid for [t], a series aligned with it or a constant for
    [N0_parent], a constant for [N0_daughter]. *)
Lemma calculate_on_grid (ts : list R) (lp ld : R) (N0p : operand) (n0d : R) :
  calculate_nuclei_population (Array ts) lp ld (spread ts N0p) (Scalar n0d)
  = Ok (Array (map (fun time => parent_form lp (at_time N0p time) time) ts),
        Array (map (fun time => daughter_form lp ld (at_time N0p time) n0d time) ts)).
Proof.
  rewrite spread_grid.
  change (Scalar n0d) with (spread ts (Const n0d)).
  destruct (Req_dec_T lp ld) as [Heq|Hne].
  - rewrite calculate_degenerate by assumption. subst ld.
    destruct N0p as [c|g]; cbn; do 3 f_equal;
      apply map_ext; intros time; now rewrite daughter_form_degenerate.
  - rewrite calculate_general by assumption.
    destruct N0p as [c|g]; cbn; do 3 f_equal;
      apply map_ext; intros time; now rewrite daughter_form_general.
Qed.

Lemma calculate_scalar_counts (ts : list R) (lp ld n0p n0d : R) :
  calculate_nuclei_population (Array ts) lp ld (Scalar n0p) (Scalar n0d)
  = Ok (Array (map (parent_form lp n0p) ts),
        Array (map (daughter_form lp ld n0p n0d) ts)).
Proof. exact (calculate_on_grid ts lp ld (Const n0p) n0d). Qed.

Lemma calculate_series_count (ts : list R) (lp ld : R) (g : R -> R) (n0d : R) :
  calculate_nuclei_population (Array ts) lp ld (Array (map g ts)) (Scalar n0d)
  = Ok (Array (map (fun time => parent_form lp (g time) time) ts),
        Array (map (fun time => daughter_form lp ld (g time) n0d time) ts)).
Proof. exact (calculate_on_grid ts lp ld (Along g) n0d). Qed.

Lemma nth_error_map_some (f : R -> R) (ts : list R) (i : nat) (time : R) :
  nth_error ts i = Some time -> nth_error (map f ts) i = Some (f time).
Proof. intros H. now rewrite nth_error_map, H. Qed.

(** ** Real-number facts about the closed forms *)

Lemma exp_nonneg (x : R) : 0 <= exp x.
Proof. left. apply exp_pos. Qed.

Lemma exp_le_mono (x y : R) : x <= y -> exp x <= exp y.
Proof.
  intros [Hlt|Heq].
  - left. now apply exp_increasing.
  - right. now rewrite Heq.
Qed.

Lemma parent_form_at_zero (lp n0p : R) : parent_form lp n0p 0 = n0p.
Proof. unfold parent_form. rewrite Rmult_0_r, exp_0. lra. Qed.

Lemma parent_form_nonneg (lp n0p time : R) :
  0 <= n0p -> 0 <= parent_form lp n0p time.
Proof.
  intros Hn. unfold parent_form.
  apply Rmult_le_pos; [assumption | apply exp_nonneg].
Qed.

Lemma parent_form_decreasing (lp n0p t1 t2 : R) :
  0 <= n0p -> 0 < lp -> t1 <= t2 ->
  parent_form lp n0p t2 <= parent_form lp n0p t1.
Proof.
  intros Hn Hl Ht. unfold parent_form.
  apply Rmult_le_compat_l; [assumption|].
  apply exp_le_mono. nra.
Qed.

Lemma bateman_general_at_zero (lp ld n0p n0d : R) :
  bateman_general lp ld n0p n0d 0 = n0d.
Proof. unfold bateman_general. rewrite !Rmult_0_r, exp_0. lra. Qed.

Lemma bateman_degenerate_at_zero (lp n0p n0d : R) :
  bateman_degenerate lp n0p n0d 0 = n0d.
Proof. unfold bateman_degenerate. rewrite !Rmult_0_r, exp_0. lra. Qed.

Lemma bateman_general_nonneg (lp ld n0p n0d time : R) :
  0 <= n0p -> 0 <= n0d -> 0 < lp -> 0 < ld -> lp <> ld -> 0 <= time ->
  0 <= bateman_general lp ld n0p n0d time.
Proof.
  intros Hp Hd Hlp Hld Hne Ht. unfold bateman_general.
  assert (Hrest : 0 <= n0d * exp (- ld * time))
    by (apply Rmult_le_pos; [assumption | apply exp_nonneg]).
  assert (Hnum : 0 <= lp * n0p) by nra.
  enough (0 <= lp * n0p / (ld - lp) * (exp (- lp * time) - exp (- ld * time))) by lra.
  destruct (Rlt_le_dec lp ld) as [Hlt|Hge].
  - (* the daughter decays faster: both factors are non-negative *)
    apply Rmult_le_pos.
    + apply Rmult_le_pos; [assumption|]. left. apply Rinv_0_lt_compat. lra.
    + assert (exp (- ld * time) <= exp (- lp * time)) by (apply exp_le_mono; nra).
      lra.
  - (* the parent decays faster: both factors are non-positive *)
    assert (Hlt : ld < lp) by lra.
    replace (lp * n0p / (ld - lp) * (exp (- lp * time) - exp (- ld * time)))
      with (lp * n0p / (lp - ld) * (exp (- ld * time) - exp (- lp * time)))
      by (field; lra).
    apply Rmult_le_pos.
    + apply Rmult_le_pos; [assumption|]. left. apply Rinv_0_lt_compat. lra.
    + assert (exp (- lp * time) <= exp (- ld * time)) by (apply exp_le_mono; nra).
      lra.
Qed.

Lemma bateman_degenerate_nonneg (lp n0p n0d time : R) :
  0 <= n0p -> 0 <= n0d -> 0 < lp -> 0 <= time ->
  0 <= bateman_degenerate lp n0p n0d time.
Proof.
  intros Hp Hd Hlp Ht. unfold bateman_degenerate.
  pose proof (exp_pos (- lp * time)) as He.
  assert (0 <= lp * n0p * time) by (repeat apply Rmult_le_pos; lra).
  nra.
Qed.

Lemma daughter_form_nonneg (lp ld n0p n0d time : R) :
  0 <= n0p -> 0 <= n0d -> 0 < lp -> 0 < ld -> 0 <= time ->
  0 <= daughter_form lp ld n0p n0d time.
Proof.
  intros Hp Hd Hlp Hld Ht.
  destruct (Req_dec_T lp ld) as [Heq|Hne].
  - subst ld. rewrite daughter_form_degenerate.
    now apply bateman_degenerate_nonneg.
  - rewrite daughter_form_general by assumption.
    now apply bateman_general_nonneg.
Qed.

Lemma daughter_form_at_zero (lp ld n0p n0d : R) :
  daughter_form lp ld n0p n0d 0 = n0d.
Proof.
  unfold daughter_form. destruct (Rneqb lp ld).
  - apply bateman_general_at_zero.
  - apply bateman_degenerate_at_zero.
Qed.

(** ** Properties of [calculate_nuclei_population] *)

(** C1.  For distinct decay constants and scalar initial counts, the
    function returns, on every grid, a daughter series as long as the grid
    whose entry at each index is the two-member Bateman closed form
    [(lp * N0p / (ld - lp)) * (exp (- lp * t) - exp (- ld * t))
     + N0d * exp (- ld * t)] at the time [t] sampled there. *)
Theorem daughter_general_closed_form (ts : list R) (lp ld n0p n0d : R) :
  lp <> ld ->
  exists N_parent N_daughter : list R,
    calculate_nuclei_population (Array ts) lp ld (Scalar n0p) (Scalar n0d)
    = Ok (Array N_parent, Array N_daughter)
    /\ length N_daughter = length ts
    /\ forall (i : nat) (time : R),
         nth_error ts i = Some time ->
         nth_error N_daughter i
         = Some ((lp * n0p / (ld - lp))
                 * (exp (- lp * time) - exp (- ld * time))
                 + n0d * exp (- ld * time)).
Proof.
  intros Hne.
  exists (map (parent_form lp n0p) ts), (map (daughter_form lp ld n0p n0d) ts).
  split; [apply calculate_scalar_counts|].
  split; [apply length_map|].
  intros i time Hi.
  rewrite (nth_error_map_some _ _ _ Hi).
  now rewrite daughter_form_general.
Qed.

Lemma daughter_general_closed_form_witness :
  1 <> 2 /\
  exists N_parent N_daughter : list R,
    calculate_nuclei_population (Array [0; 1; 2]) 1 2 (Scalar 100) (Scalar 0)
    = Ok (Array N_parent, Array N_daughter)
    /\ length N_daughter = length [0; 1; 2]
    /\ forall (i : nat) (time : R),
         nth_error [0; 1; 2] i = Some time ->
         nth_error N_daughter i
         = Some ((1 * 100 / (2 - 1))
                 * (exp (- 1 * time) - exp (- 2 * time))
                 + 0 * exp (- 2 * time)).
Proof.
  split; [lra|].
  apply (daughter_general_closed_form [0; 1; 2] 100 0 (lp := 1) (ld := 2)).
  lra.
Defined.

(** C2.  For scalar initial counts the function returns, on every grid
    and for all decay constants, a parent series as long as the grid whose
    entry at each index is [N0p * exp (- lp * t)] at the time [t] sampled
    there; wherever the grid samples the time 0 the entry is [N0p]. *)
Theorem parent_exponential_decay (ts : list R) (lp ld n0p n0d : R) :
  exists N_parent N_daughter : list R,
    calculate_nuclei_population (Array ts) lp ld (Scalar n0p) (Scalar n0d)
    = Ok (Array N_parent, Array N_daughter)
    /\ length N_parent = length ts
    /\ (forall (i : nat) (time : R),
          nth_error ts i = Some time ->
          nth_error N_parent i = Some (n0p * exp (- lp * time)))
    /\ (forall i : nat,
          nth_error ts i = Some 0 -> nth_error N_parent i = Some n0p).
Proof.
  exists (map (parent_form lp n0p) ts), (map (daughter_form lp ld n0p n0d) ts).
  split; [apply calculate_scalar_counts|].
  split; [apply length_map|].
  split.
  - intros i time Hi. now rewrite (nth_error_map_some _ _ _ Hi).
  - intros i Hi. rewrite (nth_error_map_some _ _ _ Hi).
    now rewrite parent_form_at_zero.
Qed.

(** In real arithmetic the branch is chosen by the exact test
    [lp != ld].  When the two decay constants are equal the function
    returns the limiting form
    [lp * N0p * t * exp (- lp * t) + N0d * exp (- lp * t)] at every index;
    when they differ, however little, it returns the general form. *)
Lemma degenerate_branch_limiting_form (ts : list R) (lp ld n0p n0d : R) :
  (lp = ld ->
   exists N_parent N_daughter : list R,
     calculate_nuclei_population (Array ts) lp ld (Scalar n0p) (Scalar n0d)
     = Ok (Array N_parent, Array N_daughter)
     /\ length N_daughter = length ts
     /\ forall (i : nat) (time : R),
          nth_error ts i = Some time ->
          nth_error N_daughter i
          = Some (lp * n0p * time * exp (- lp * time)
                  + n0d * exp (- lp * time)))
  /\ (lp <> ld ->
      exists N_parent : list R,
        calculate_nuclei_population (Array ts) lp ld (Scalar n0p) (Scalar n0d)
        = Ok (Array N_parent, Array (map (bateman_general lp ld n0p n0d) ts))).
Proof.
  rewrite calculate_scalar_counts.
  split.
  - intros Heq. subst ld.
    exists (map (parent_form lp n0p) ts), (map (daughter_form lp lp n0p n0d) ts).
    split; [reflexivity|].
    split; [apply length_map|].
    intros i time Hi.
    rewrite (nth_error_map_some _ _ _ Hi).
    now rewrite daughter_form_degenerate.
  - intros Hne.
    exists (map (parent_form lp n0p) ts).
    do 3 f_equal. apply map_ext. intros time.
    now apply daughter_form_general.
Qed.

(** *** The guard on integers and doubles *)

Lemma float_of_int_raises (z : Z) (e : py_exception) :
  float_of_int z = Raises e -> e = OverflowError.
Proof.
  unfold float_of_int.
  destruct (binary_normalize 53 1024 z 0 false); intros H; inversion H; reflexivity.
Qed.

Example float_of_int_exact : float_of_int (2 ^ 53) = Returns two_pow_53.
Proof. reflexivity. Qed.

Example float_of_int_ties_to_even :
  float_of_int (2 ^ 53 + 1) = Returns two_pow_53
  /\ float_of_int (2 ^ 53 + 3) = float_of_int (2 ^ 53 + 4).
Proof. split; reflexivity. Qed.

Example float_of_int_overflow :
  float_of_int (2 ^ 1024 - 2 ^ 970) = Raises OverflowError
  /\ is_zero (fsub two_pow_53 two_pow_53) = true.
Proof. split; reflexivity. Qed.

(** When the test [lambda_parent != lambda_daughter] is false the
    function divides nowhere: whatever it returns or raises, it is not a
    division by zero. *)
Lemma equal_constants_never_divide
    (np_exp64 : double -> double) (t : double)
    (lambda_parent : Z) (lambda_daughter : double) (N0_parent N0_daughter : Z) :
  int_ne_float lambda_parent lambda_daughter = false ->
  calculate_nuclei_population_int_float
    np_exp64 t lambda_parent lambda_daughter N0_parent N0_daughter
  <> Raises ZeroDivisionError.
Proof.
  intros Heq. unfold calculate_nuclei_population_int_float. rewrite Heq.
  repeat match goal with
  | |- context [float_of_int ?z] =>
      let H := fresh "H" in
      destruct (float_of_int z) as [?|?e] eqn:H;
        [ cbn [and_then]
        | apply float_of_int_raises in H; subst; cbn [and_then]; discriminate ]
  end.
  discriminate.
Qed.

(** C3.  The guard does not keep the divisor of the general branch from
    zero.  For [lambda_parent] the integer [2 ** 53 + 1] and
    [lambda_daughter] the double [2.0 ** 53] the test
    [lambda_parent != lambda_daughter] holds, since the two values are
    compared exactly; the difference [lambda_daughter - lambda_parent]
    converts the integer to [2.0 ** 53] and is zero; so the general
    branch is taken and its quotient raises ZeroDivisionError, for every
    time [t] and whatever [exp] returns. *)
Theorem unequal_constants_divide_by_zero
    (np_exp64 : double -> double) (t : double) :
  int_ne_float (2 ^ 53 + 1) two_pow_53 = true
  /\ float_of_int (2 ^ 53 + 1) = Returns two_pow_53
  /\ is_zero (fsub two_pow_53 two_pow_53) = true
  /\ calculate_nuclei_population_int_float
       np_exp64 t (2 ^ 53 + 1) two_pow_53 1 0
     = Raises ZeroDivisionError.
Proof.
  assert (Hguard : int_ne_float (2 ^ 53 + 1) two_pow_53 = true) by reflexivity.
  assert (Hconv : float_of_int (2 ^ 53 + 1) = Returns two_pow_53) by reflexivity.
  assert (Hzero : is_zero (fsub two_pow_53 two_pow_53) = true) by reflexivity.
  repeat (split; [assumption|]).
  unfold calculate_nuclei_population_int_float.
  rewrite Hguard.
  (* line 46 converts two integers and raises nothing *)
  change (float_of_int (- (2 ^ 53 + 1)))
    with (Returns (fneg two_pow_53)).
  change (float_of_int 1) with (Returns (S754_finite false 4503599627370496 (-52))).
  cbn [and_then].
  (* line 50: the divisor is the rounded difference *)
  rewrite Hconv. cbn [and_then].
  change (float_of_int ((2 ^ 53 + 1) * 1)) with (Returns two_pow_53).
  cbn [and_then].
  unfold float_truediv. rewrite Hzero. reflexivity.
Qed.

(** C6.  For non-negative scalar counts and positive decay constants, at
    every index whose time is non-negative both returned series are
    non-negative, and wherever the time is 0 the daughter entry is the
    declared [N0d], whichever branch is taken. *)
Theorem populations_nonnegative (ts : list R) (lp ld n0p n0d : R) :
  0 <= n0p -> 0 <= n0d -> 0 < lp -> 0 < ld ->
  exists N_parent N_daughter : list R,
    calculate_nuclei_population (Array ts) lp ld (Scalar n0p) (Scalar n0d)
    = Ok (Array N_parent, Array N_daughter)
    /\ length N_parent = length ts
    /\ length N_daughter = length ts
    /\ forall (i : nat) (time : R),
         nth_error ts i = Some time -> 0 <= time ->
         exists p d : R,
           nth_error N_parent i = Some p
           /\ nth_error N_daughter i = Some d
           /\ 0 <= p /\ 0 <= d
           /\ (time = 0 -> d = n0d).
Proof.
  intros Hp Hd Hlp Hld.
  exists (map (parent_form lp n0p) ts), (map (daughter_form lp ld n0p n0d) ts).
  split; [apply calculate_scalar_counts|].
  split; [apply length_map|].
  split; [apply length_map|].
  intros i time Hi Ht.
  exists (parent_form lp n0p time), (daughter_form lp ld n0p n0d time).
  repeat split.
  - now apply nth_error_map_some.
  - now apply nth_error_map_some.
  - now apply parent_form_nonneg.
  - now apply daughter_form_nonneg.
  - intros ->. apply daughter_form_at_zero.
Qed.

Lemma populations_nonnegative_witness :
  (0 <= 100 /\ 0 <= 5 /\ 0 < 1 /\ 0 < 1) /\
  exists N_parent N_daughter : list R,
    calculate_nuclei_population (Array [0; 3]) 1 1 (Scalar 100) (Scalar 5)
    = Ok (Array N_parent, Array N_daughter)
    /\ length N_parent = length [0; 3]
    /\ length N_daughter = length [0; 3]
    /\ forall (i : nat) (time : R),
         nth_error [0; 3] i = Some time -> 0 <= time ->
         exists p d : R,
           nth_error N_parent i = Some p
           /\ nth_error N_daughter i = Some d
           /\ 0 <= p /\ 0 <= d
           /\ (time = 0 -> d = 5).
Proof.
  split; [lra|].
  apply (populations_nonnegative [0; 3] (lp := 1) (ld := 1) (n0p := 100) (n0d := 5));
    lra.
Defined.

(** C10.  For a non-negative scalar parent count and a positive parent
    decay constant the returned parent series does not increase with
    time: of two indices, the one with the later (or equal) time holds the
    smaller (or equal) value. *)
Theorem parent_series_nonincreasing (ts : list R) (lp ld n0p n0d : R) :
  0 <= n0p -> 0 < lp ->
  exists N_parent N_daughter : list R,
    calculate_nuclei_population (Array ts) lp ld (Scalar n0p) (Scalar n0d)
    = Ok (Array N_parent, Array N_daughter)
    /\ length N_parent = length ts
    /\ forall (i j : nat) (t1 t2 : R),
         nth_error ts i = Some t1 -> nth_error ts j = Some t2 -> t1 <= t2 ->
         exists p1 p2 : R,
           nth_error N_parent i = Some p1
           /\ nth_error N_parent j = Some p2
           /\ p2 <= p1.
Proof.
  intros Hp Hlp.
  exists (map (parent_form lp n0p) ts), (map (daughter_form lp ld n0p n0d) ts).
  split; [apply calculate_scalar_counts|].
  split; [apply length_map|].
  intros i j t1 t2 Hi Hj Hle.
  exists (parent_form lp n0p t1), (parent_form lp n0p t2).
  split; [now apply nth_error_map_some|].
  split; [now apply nth_error_map_some|].
  now apply parent_form_decreasing.
Qed.

Lemma parent_series_nonincreasing_witness :
  (0 <= 7 /\ 0 < 2) /\
  exists N_parent N_daughter : list R,
    calculate_nuclei_population (Array [4; 1]) 2 3 (Scalar 7) (Scalar 0)
    = Ok (Array N_parent, Array N_daughter)
    /\ length N_parent = length [4; 1]
    /\ forall (i j : nat) (t1 t2 : R),
         nth_error [4; 1] i = Some t1 -> nth_error [4; 1] j = Some t2 -> t1 <= t2 ->
         exists p1 p2 : R,
           nth_error N_parent i = Some p1
           /\ nth_error N_parent j = Some p2
           /\ p2 <= p1.
Proof.
  split; [lra|].
  apply (parent_series_nonincreasing [4; 1] 3 0 (lp := 2) (n0p := 7)); lra.
Defined.

(** ** Properties of [calculate_activity] *)

(** C7.  For every operand [N] and every decay constant the function
    returns [N] scaled element by element and never fails; on a series
    the result is a series of the same length whose entry at each index is
    the decay constant times the entry of [N] there. *)
Theorem activity_pointwise_scaling (lambda_decay : R) :
  (forall N : value,
      calculate_activity N lambda_decay = Ok (elementwise (Rmult lambda_decay) N))
  /\ forall ns : list R,
       exists A : list R,
         calculate_activity (Array ns) lambda_decay = Ok (Array A)
         /\ length A = length ns
         /\ forall (i : nat) (n : R),
              nth_error ns i = Some n ->
              nth_error A i = Some (lambda_decay * n).
Proof.
  split.
  - intros [n|ns]; reflexivity.
  - intros ns. exists (map (Rmult lambda_decay) ns).
    split; [reflexivity|].
    split; [apply length_map|].
    intros i n Hi. now apply nth_error_map_some.
Qed.

(** ** The chain *)

Lemma linspace_length (start stop : R) (num : nat) :
  length (linspace start stop num) = num.
Proof.
  destruct num as [|[|n]]; [reflexivity | reflexivity |].
  unfold linspace. now rewrite length_map, length_seq.
Qed.

Lemma linspace_entry (start stop : R) (num i : nat) :
  (2 <= num)%nat -> (i < num)%nat ->
  nth_error (linspace start stop num) i
  = Some (INR i * ((stop - start) / INR (num - 1)) + start).
Proof.
  intros Hnum Hi.
  destruct num as [|[|n]]; [lia | lia |].
  unfold linspace.
  rewrite nth_error_map.
  rewrite (nth_error_nth' (seq 0 (S (S n))) 0%nat) by (now rewrite length_seq).
  now rewrite seq_nth.
Qed.

Lemma decay_constants_differ (a b : R) :
  0 < a -> 0 < b -> a <> b -> ln 2 / a <> ln 2 / b.
Proof.
  intros Ha Hb Hab Heq. apply Hab.
  assert (Hln : 0 < ln 2) by (pose proof ln_lt_2; lra).
  replace a with (ln 2 / (ln 2 / a)) by (field; lra).
  rewrite Heq. field. lra.
Qed.

Lemma lambda_Th230_Ra226_differ : lambda_Th230 <> lambda_Ra226.
Proof.
  unfold lambda_Th230, lambda_Ra226, T_half_Th230, T_half_Ra226.
  apply decay_constants_differ; lra.
Qed.

Lemma lambda_Ra226_Rn222_differ : lambda_Ra226 <> lambda_Rn222.
Proof.
  unfold lambda_Ra226, lambda_Rn222, T_half_Ra226, T_half_Rn222.
  apply decay_constants_differ; lra.
Qed.

Lemma lambda_U234_Th230_differ : lambda_U234 <> lambda_Th230.
Proof.
  unfold lambda_U234, lambda_Th230, T_half_U234, T_half_Th230.
  apply decay_constants_differ; lra.
Qed.

(** The six series of the chain on a grid. *)
Lemma chain_on_grid (ts : list R) (l1 l2 l3 l4 n1 n2 n3 n4 : R) :
  let dTh := daughter_form l1 l2 n1 n2 in
  let dRa := fun time => daughter_form l2 l3 (dTh time) n3 time in
  let dRn := fun time => daughter_form l3 l4 (dRa time) n4 time in
  chain_evaluation (Array ts) l1 l2 l3 l4 n1 n2 n3 n4
  = Ok (Populations
          (Array (map (parent_form l1 n1) ts))
          (Array (map dTh ts))
          (Array (map (fun time => parent_form l2 (dTh time) time) ts))
          (Array (map dRa ts))
          (Array (map (fun time => parent_form l3 (dRa time) time) ts))
          (Array (map dRn ts))).
Proof.
  intros dTh dRa dRn. unfold chain_evaluation.
  rewrite calculate_scalar_counts. cbn [bind].
  fold dTh. rewrite calculate_series_count. cbn [bind].
  fold dRa. rewrite calculate_series_count. cbn [bind].
  reflexivity.
Qed.

(** C4.  In the evaluation of the script, the second and the third call
    receive as [N0_parent] the daughter array returned by the call before,
    unchanged: [N_Th230] is the daughter series returned by the first
    call and the parent count of the second, [N_Ra226] is the daughter
    series returned by the second call and the parent count of the third.
    At every index of the grid the daughter value of a link is the Bateman
    expression whose parent count is the entry of the previous link's
    daughter series at the same index.  The multiplication by the decay
    factor of line 46 happens inside the receiving link and produces the
    parent series that link returns ([N_Th230_from_U],
    [N_Ra226_from_Th]); no link is fed with it. *)
Theorem chain_link_reads_previous_daughter :
  exists U Th Th_from_U Ra Ra_from_Th Rn : list R,
    script_populations
    = Ok (Populations (Array U) (Array Th) (Array Th_from_U)
                      (Array Ra) (Array Ra_from_Th) (Array Rn))
    /\ calculate_nuclei_population t lambda_U234 lambda_Th230
                                   (Scalar N0_U234) (Scalar N0_Th230)
       = Ok (Array U, Array Th)
    /\ calculate_nuclei_population t lambda_Th230 lambda_Ra226
                                   (Array Th) (Scalar N0_Ra226)
       = Ok (Array Th_from_U, Array Ra)
    /\ calculate_nuclei_population t lambda_Ra226 lambda_Rn222
                                   (Array Ra) (Scalar N0_Rn222)
       = Ok (Array Ra_from_Th, Array Rn)
    /\ length Th = length t_grid
    /\ length Ra = length t_grid
    /\ forall (i : nat) (time : R),
         nth_error t_grid i = Some time ->
         exists th ra rn : R,
           nth_error Th i = Some th
           /\ nth_error Ra i = Some ra
           /\ nth_error Rn i = Some rn
           /\ th = (lambda_U234 * N0_U234 / (lambda_Th230 - lambda_U234))
                   * (exp (- lambda_U234 * time) - exp (- lambda_Th230 * time))
                   + N0_Th230 * exp (- lambda_Th230 * time)
           /\ ra = (lambda_Th230 * th / (lambda_Ra226 - lambda_Th230))
                   * (exp (- lambda_Th230 * time) - exp (- lambda_Ra226 * time))
                   + N0_Ra226 * exp (- lambda_Ra226 * time)
           /\ rn = (lambda_Ra226 * ra / (lambda_Rn222 - lambda_Ra226))
                   * (exp (- lambda_Ra226 * time) - exp (- lambda_Rn222 * time))
                   + N0_Rn222 * exp (- lambda_Rn222 * time)
           /\ nth_error Th_from_U i = Some (th * exp (- lambda_Th230 * time))
           /\ nth_error Ra_from_Th i = Some (ra * exp (- lambda_Ra226 * time)).
Proof.
  unfold script_populations, t. generalize t_grid. intros ts.
  rewrite chain_on_grid.
  set (dTh := daughter_form lambda_U234 lambda_Th230 N0_U234 N0_Th230).
  set (dRa := fun time => daughter_form lambda_Th230 lambda_Ra226 (dTh time) N0_Ra226 time).
  set (dRn := fun time => daughter_form lambda_Ra226 lambda_Rn222 (dRa time) N0_Rn222 time).
  do 6 eexists.
  split; [reflexivity|].
  split; [apply calculate_scalar_counts|].
  split; [apply (calculate_series_count ts lambda_Th230 lambda_Ra226 dTh N0_Ra226)|].
  split; [apply (calculate_series_count ts lambda_Ra226 lambda_Rn222 dRa N0_Rn222)|].
  split; [apply length_map|].
  split; [apply length_map|].
  intros i time Hi.
  exists (dTh time), (dRa time), (dRn time).
  do 3 (split; [rewrite nth_error_map, Hi; reflexivity|]).
  split.
  { unfold dTh. rewrite daughter_form_general by apply lambda_U234_Th230_differ.
    reflexivity. }
  split.
  { unfold dRa. rewrite daughter_form_general by apply lambda_Th230_Ra226_differ.
    reflexivity. }
  split.
  { unfold dRn. rewrite daughter_form_general by apply lambda_Ra226_Rn222_differ.
    reflexivity. }
  split; rewrite nth_error_map, Hi; reflexivity.
Qed.

Lemma t_grid_length : length t_grid = grid_points.
Proof. apply linspace_length. Qed.

(** ** The secular-equilibrium quotients *)

Lemma ln_2_pos : 0 < ln 2.
Proof. pose proof ln_lt_2. lra. Qed.

Lemma lambda_U234_pos : 0 < lambda_U234.
Proof.
  unfold lambda_U234, T_half_U234.
  apply Rdiv_lt_0_compat; [apply ln_2_pos | lra].
Qed.

Lemma sample_ratio : lambda_Th230 / lambda_U234 = 245500 / 75380.
Proof.
  unfold lambda_Th230, lambda_U234, T_half_Th230, T_half_U234.
  pose proof ln_2_pos. field. lra.
Qed.

Lemma minus_ln_hundredth : - ln 0.01 = ln 100.
Proof.
  replace 0.01 with (/ 100) by lra.
  rewrite ln_Rinv by lra. lra.
Qed.

(** Squaring with rounding down keeps a lower bound of the
    exponential. *)
Lemma square_down_sound (k : nat) :
  forall (c : Z) (y : R),
    (0 <= c)%Z ->
    IZR c / IZR scale <= exp y ->
    IZR (square_down k c) / IZR scale <= exp (2 ^ k * y).
Proof.
  assert (Hs : 0 < IZR scale) by (unfold scale; lra).
  induction k as [|k IH]; intros c y Hc Hle.
  - simpl. now rewrite Rmult_1_l.
  - cbn [square_down].
    replace (2 ^ S k * y) with (2 ^ k * (y + y)) by (simpl; ring).
    apply IH.
    + apply Z.div_pos; [nia | reflexivity].
    + rewrite exp_plus.
      assert (H0 : 0 <= IZR c / IZR scale).
      { apply Rmult_le_pos; [now apply IZR_le | left; now apply Rinv_0_lt_compat]. }
      assert (Hsq : IZR c / IZR scale * (IZR c / IZR scale) <= exp y * exp y)
        by (apply Rmult_le_compat; assumption).
      assert (Hdiv : IZR (c * c / scale) * IZR scale <= IZR c * IZR c).
      { rewrite <- !mult_IZR. apply IZR_le.
        rewrite Z.mul_comm. apply Z.mul_div_le. reflexivity. }
      assert (Hq : IZR (c * c / scale) / IZR scale
                   <= IZR c / IZR scale * (IZR c / IZR scale)).
      { apply Rmult_le_reg_r with (IZR scale * IZR scale); [nra|].
        replace (IZR (c * c / scale) / IZR scale * (IZR scale * IZR scale))
          with (IZR (c * c / scale) * IZR scale) by (field; lra).
        replace (IZR c / IZR scale * (IZR c / IZR scale) * (IZR scale * IZR scale))
          with (IZR c * IZR c) by (field; lra).
        assumption. }
      lra.
Qed.

(** [target / scale <= exp y], from [1 + x <= exp x] at [x = y / 2 ^ 20]
    and twenty squarings. *)
Lemma exp_lower_bound (c0 target : Z) (y : R) :
  (0 <= c0)%Z ->
  IZR c0 / IZR scale <= 1 + y / 1048576 ->
  (target <=? square_down 20 c0)%Z = true ->
  IZR target / IZR scale <= exp y.
Proof.
  intros Hc Hstart Hend.
  assert (Hs : 0 < IZR scale) by (unfold scale; lra).
  replace (exp y) with (exp (2 ^ 20 * (y / 1048576)))
    by (f_equal; simpl; field).
  apply Rle_trans with (IZR (square_down 20 c0) / IZR scale).
  - apply Rmult_le_compat_r; [left; now apply Rinv_0_lt_compat|].
    apply IZR_le. now apply Z.leb_le.
  - apply square_down_sound; [assumption|].
    apply Rle_trans with (1 + y / 1048576); [assumption | apply exp_ineq1_le].
Qed.

Lemma ln_lt_of_exp (x y : R) : 0 < x -> x < exp y -> ln x < y.
Proof.
  intros Hx Hlt. rewrite <- (ln_exp y). now apply ln_increasing.
Qed.

Lemma ln_hundred_bounds : 4.605 < ln 100 < 4.6052.
Proof.
  split.
  - enough (ln (/ 100) < - 4.605) by (rewrite ln_Rinv in * by lra; lra).
    apply ln_lt_of_exp; [lra|].
    apply Rlt_le_trans with (IZR 10001000000000 / IZR scale);
      [unfold scale; lra|].
    apply exp_lower_bound with (c0 := 999995608329772%Z);
      [lia | unfold scale; lra | vm_compute; reflexivity].
  - apply ln_lt_of_exp; [lra|].
    apply Rlt_le_trans with (IZR 100001000000000000 / IZR scale);
      [unfold scale; lra|].
    apply exp_lower_bound with (c0 := 1000004391860961%Z);
      [lia | unfold scale; lra | vm_compute; reflexivity].
Qed.

Lemma ln_2_bounds : 0.693146 < ln 2 < 0.693148.
Proof.
  split.
  - enough (ln (/ 2) < - 0.693146) by (rewrite ln_Rinv in * by lra; lra).
    apply ln_lt_of_exp; [lra|].
    apply Rlt_le_trans with (IZR 500000400000000 / IZR scale);
      [unfold scale; lra|].
    apply exp_lower_bound with (c0 := 999999338964462%Z);
      [lia | unfold scale; lra | vm_compute; reflexivity].
  - apply ln_lt_of_exp; [lra|].
    apply Rlt_le_trans with (IZR 2000001000000000 / IZR scale);
      [unfold scale; lra|].
    apply exp_lower_bound with (c0 := 1000000661037445%Z);
      [lia | unfold scale; lra | vm_compute; reflexivity].
Qed.

Lemma sample_time_bounds :
  1631000 < ln 100 / lambda_U234 < 1631100.
Proof.
  unfold lambda_U234, T_half_U234.
  destruct ln_2_bounds as [H2lo H2hi].
  destruct ln_hundred_bounds as [Hlo Hhi].
  replace (ln 100 / (ln 2 / 245500)) with (245500 * ln 100 / ln 2)
    by (field; lra).
  split.
  - apply Rmult_lt_reg_r with (ln 2); [lra|].
    replace (245500 * ln 100 / ln 2 * ln 2) with (245500 * ln 100) by (field; lra).
    nra.
  - apply Rmult_lt_reg_r with (ln 2); [lra|].
    replace (245500 * ln 100 / ln 2 * ln 2) with (245500 * ln 100) by (field; lra).
    nra.
Qed.

(** C8, as the code has it.  For a positive parent decay constant the
    ratio is exactly the quotient of the daughter's constant by the
    parent's.  For U-234 -> Th-230 it is 245500/75380, which lies between
    3.2568 and 3.2569. *)
Theorem equilibrium_ratio_quotient (lambda_parent lambda_daughter : R) :
  0 < lambda_parent ->
  equilibriumRatio lambda_parent lambda_daughter
  = Ok (lambda_daughter / lambda_parent)
  /\ equilibriumRatio lambda_U234 lambda_Th230 = Ok (245500 / 75380)
  /\ 3.2568 < 245500 / 75380 < 3.2569.
Proof.
  intros Hpos. unfold equilibriumRatio.
  split; [apply float_div_ok; lra|].
  split; [|lra].
  rewrite float_div_ok by (pose proof lambda_U234_pos; lra).
  now rewrite sample_ratio.
Qed.

Lemma equilibrium_ratio_quotient_witness :
  0 < 2 /\
  (equilibriumRatio 2 3 = Ok (3 / 2)
   /\ equilibriumRatio lambda_U234 lambda_Th230 = Ok (245500 / 75380)
   /\ 3.2568 < 245500 / 75380 < 3.2569).
Proof.
  split; [lra|].
  apply (equilibrium_ratio_quotient 3 (lambda_parent := 2)). lra.
Defined.

(** The ratio the script prints for U-234 -> Th-230 is not 3.2562 to the
    four decimals written: it is more than 0.0006 away from it. *)
Lemma equilibrium_ratio_sample_off_3_2562 :
  exists r : R,
    equilibriumRatio lambda_U234 lambda_Th230 = Ok r
    /\ 0.0006 < Rabs (r - 3.2562).
Proof.
  exists (245500 / 75380). split.
  - unfold equilibriumRatio.
    rewrite float_div_ok by (pose proof lambda_U234_pos; lra).
    now rewrite sample_ratio.
  - rewrite Rabs_pos_eq by lra. lra.
Qed.

(** C9.  For a positive parent decay constant the time is exactly
    [- ln 0.01 / lambda_parent].  For U-234, whose decay constant is
    [ln 2 / 245500], it is [- ln 0.01 * 245500 / ln 2], where
    [- ln 0.01] lies between 4.605 and 4.6052: a time between 1,631,000
    and 1,631,100 years, that is 1,630,000 to three significant digits. *)
Theorem time_to_equilibrium_quotient (lambda_parent : R) :
  0 < lambda_parent ->
  timeTo99PercentEquilibrium lambda_parent = Ok (- ln 0.01 / lambda_parent)
  /\ exists years : R,
       timeTo99PercentEquilibrium (ln 2 / 245500) = Ok years
       /\ t_equilibrium_Th = Ok years
       /\ years = - ln 0.01 * 245500 / ln 2
       /\ 4.605 < - ln 0.01 < 4.6052
       /\ 1631000 < years < 1631100.
Proof.
  intros Hpos. unfold t_equilibrium_Th, timeTo99PercentEquilibrium.
  split; [apply float_div_ok; lra|].
  exists (- ln 0.01 / lambda_U234).
  pose proof lambda_U234_pos as HU.
  split.
  { unfold lambda_U234, T_half_U234 in *. apply float_div_ok. lra. }
  split; [apply float_div_ok; lra|].
  split.
  - unfold lambda_U234, T_half_U234. pose proof ln_2_pos. field. lra.
  - rewrite minus_ln_hundredth.
    split; [apply ln_hundred_bounds | apply sample_time_bounds].
Qed.

Lemma time_to_equilibrium_quotient_witness :
  0 < 2 /\
  (timeTo99PercentEquilibrium 2 = Ok (- ln 0.01 / 2)
   /\ exists years : R,
        timeTo99PercentEquilibrium (ln 2 / 245500) = Ok years
        /\ t_equilibrium_Th = Ok years
        /\ years = - ln 0.01 * 245500 / ln 2
        /\ 4.605 < - ln 0.01 < 4.6052
        /\ 1631000 < years < 1631100).
Proof.
  split; [lra|].
  apply (time_to_equilibrium_quotient (lambda_parent := 2)). lra.
Defined.

(** ** Arguments are not validated *)

(** C5, as the code has it.  No operation inspects its arguments.
    [calculate_nuclei_population] returns two series of the grid's length
    for every grid (empty or unordered ones too), all real decay
    constants and all scalar counts; [calculate_activity] returns a result
    for every operand and constant; the two quotients return a value for
    every non-zero parent decay constant, negative ones included. *)
Theorem operations_accept_every_argument :
  (forall (ts : list R) (lp ld n0p n0d : R),
      exists N_parent N_daughter : list R,
        calculate_nuclei_population (Array ts) lp ld (Scalar n0p) (Scalar n0d)
        = Ok (Array N_parent, Array N_daughter)
        /\ length N_parent = length ts
        /\ length N_daughter = length ts)
  /\ (forall (N : value) (lambda_decay : R),
         is_ok (calculate_activity N lambda_decay) = true)
  /\ (forall lp ld : R,
         lp <> 0 -> equilibriumRatio lp ld = Ok (ld / lp))
  /\ (forall lp : R,
         lp <> 0 -> timeTo99PercentEquilibrium lp = Ok (- ln 0.01 / lp)).
Proof.
  split; [|split; [|split]].
  - intros ts lp ld n0p n0d.
    exists (map (parent_form lp n0p) ts), (map (daughter_form lp ld n0p n0d) ts).
    split; [apply calculate_scalar_counts|].
    split; apply length_map.
  - intros [n|ns] lambda_decay; reflexivity.
  - intros lp ld Hlp. now apply float_div_ok.
  - intros lp Hlp. now apply float_div_ok.
Qed.

(** A negative parent decay constant, a zero daughter decay constant, a
    negative parent count and a grid that is empty or runs backwards are
    all computed with: the function returns series, one of them holding a
    negative population; the other operations return values too. *)
Lemma invalid_arguments_are_computed_with :
  calculate_nuclei_population (Array []) (-1) 0 (Scalar (-5)) (Scalar 0)
  = Ok (Array [], Array [])
  /\ (exists N_parent N_daughter : list R,
         calculate_nuclei_population (Array [1; 0]) (-1) 0 (Scalar (-5)) (Scalar 0)
         = Ok (Array N_parent, Array N_daughter)
         /\ nth_error N_parent 1 = Some (-5))
  /\ calculate_activity (Array [-3]) (-2) = Ok (Array [-2 * -3])
  /\ equilibriumRatio (-1) 1 = Ok (1 / -1)
  /\ timeTo99PercentEquilibrium (-1) = Ok (- ln 0.01 / -1).
Proof.
  split; [|split; [|split; [|split]]].
  - now rewrite calculate_scalar_counts.
  - rewrite calculate_scalar_counts. do 2 eexists.
    split; [reflexivity|].
    cbn [map nth_error]. now rewrite parent_form_at_zero.
  - reflexivity.
  - apply float_div_ok. lra.
  - apply float_div_ok. lra.
Qed.

(** * Further properties of the script *)

(** ** Shapes of the arguments *)

Lemma broadcast_aligned (f : R -> R -> R) (g h : R -> R) (ts : list R) :
  broadcast f (Array (map g ts)) (Array (map h ts))
  = Ok (Array (map (fun time => f (g time) (h time)) ts)).
Proof. exact (broadcast_spread f ts (Along g) (Along h)). Qed.

Lemma broadcast_scalars (f : R -> R -> R) (x y : R) :
  broadcast f (Scalar x) (Scalar y) = Ok (Scalar (f x y)).
Proof. reflexivity. Qed.

Lemma broadcast_scalar_left (f : R -> R -> R) (x : R) (ys : list R) :
  broadcast f (Scalar x) (Array ys) = Ok (Array (map (f x) ys)).
Proof. reflexivity. Qed.

Lemma broadcast_scalar_right (f : R -> R -> R) (xs : list R) (y : R) :
  broadcast f (Array xs) (Scalar y) = Ok (Array (map (fun x => f x y) xs)).
Proof. reflexivity. Qed.

Lemma broadcast_refused (f : R -> R -> R) (xs ys : list R) :
  length xs <> length ys -> length xs <> 1%nat -> length ys <> 1%nat ->
  broadcast f (Array xs) (Array ys) = Err ValueError.
Proof.
  intros Hne Hx Hy. unfold broadcast.
  destruct (Nat.eqb_spec (length xs) (length ys)) as [Heq|_]; [contradiction|].
  destruct xs as [|x [|x' xs]]; destruct ys as [|y [|y' ys]];
    simpl in *; try contradiction; reflexivity.
Qed.

Lemma broadcast_one_left (f : R -> R -> R) (x : R) (ys : list R) :
  broadcast f (Array [x]) (Array ys) = Ok (Array (map (f x) ys)).
Proof.
  unfold broadcast.
  destruct (Nat.eqb_spec (length [x]) (length ys)) as [Heq|_]; [|reflexivity].
  destruct ys as [|y [|y' ys]]; simpl in Heq; try discriminate.
  reflexivity.
Qed.

(** An array for [N0_parent] that the grid cannot be paired with stops
    the function at its first product: when the two lengths differ and
    neither is one, the result is numpy's broadcasting error. *)
Theorem population_shape_mismatch
    (ts ns : list R) (lp ld : R) (N0_daughter : value) :
  length ns <> length ts -> length ns <> 1%nat -> length ts <> 1%nat ->
  calculate_nuclei_population (Array ts) lp ld (Array ns) N0_daughter
  = Err ValueError.
Proof.
  intros Hne Hn Ht.
  unfold calculate_nuclei_population, np_mul, np_exp.
  rewrite broadcast_scalar_left. cbn [bind elementwise].
  rewrite broadcast_refused; [reflexivity | | assumption |];
    now rewrite !length_map.
Qed.

Lemma population_shape_mismatch_witness :
  (length [5; 6] <> length [0; 1; 2]
   /\ length [5; 6] <> 1%nat /\ length [0; 1; 2] <> 1%nat)
  /\ calculate_nuclei_population (Array [0; 1; 2]) 1 2 (Array [5; 6]) (Scalar 0)
     = Err ValueError.
Proof.
  split; [repeat split; simpl; lia|].
  apply population_shape_mismatch; simpl; lia.
Defined.

(** An array of one element for [N0_parent] is paired with every time of
    the grid: the function returns what it returns for the scalar. *)
Theorem population_one_element_count
    (ts : list R) (lp ld n n0d : R) :
  calculate_nuclei_population (Array ts) lp ld (Array [n]) (Scalar n0d)
  = calculate_nuclei_population (Array ts) lp ld (Scalar n) (Scalar n0d)
  /\ exists N_parent N_daughter : list R,
       calculate_nuclei_population (Array ts) lp ld (Array [n]) (Scalar n0d)
       = Ok (Array N_parent, Array N_daughter)
       /\ length N_parent = length ts
       /\ length N_daughter = length ts.
Proof.
  assert (Hone :
    calculate_nuclei_population (Array ts) lp ld (Array [n]) (Scalar n0d)
    = Ok (Array (map (parent_form lp n) ts),
          Array (map (daughter_form lp ld n n0d) ts))).
  { unfold calculate_nuclei_population, np_mul, np_add, np_sub, np_exp, np_div.
    unfold daughter_form.
    destruct (Req_dec_T lp ld) as [Heq|Hne].
    - subst ld. rewrite Rneqb_false. unfold bateman_degenerate.
      repeat first
        [ rewrite broadcast_scalar_left
        | rewrite broadcast_one_left
        | rewrite broadcast_aligned
        | rewrite map_map
        | progress cbn [bind elementwise map] ].
      reflexivity.
    - rewrite (Rneqb_true Hne). unfold bateman_general.
      repeat first
        [ rewrite broadcast_scalar_left
        | rewrite broadcast_scalar_right
        | rewrite broadcast_one_left
        | rewrite broadcast_aligned
        | rewrite map_map
        | rewrite Rzerob_false by lra
        | progress cbn [bind elementwise map has_zero] ].
      reflexivity. }
  split.
  - now rewrite Hone, calculate_scalar_counts.
  - rewrite Hone. do 2 eexists.
    split; [reflexivity|]. split; apply length_map.
Qed.

(** On a single time, given as a scalar, the function returns two
    scalars: the parent's exponential decay and, by the branch the test
    selects, the daughter's closed form at that time. *)
Theorem population_scalar_time (time lp ld n0p n0d : R) :
  calculate_nuclei_population (Scalar time) lp ld (Scalar n0p) (Scalar n0d)
  = Ok (Scalar (n0p * exp (- lp * time)),
        Scalar (if Rneqb lp ld
                then bateman_general lp ld n0p n0d time
                else bateman_degenerate lp n0p n0d time)).
Proof.
  change (Scalar time) with (spread [] (Const time)).
  change (Scalar n0p) with (spread [] (Const n0p)).
  change (Scalar n0d) with (spread [] (Const n0d)).
  destruct (Req_dec_T lp ld) as [Heq|Hne].
  - rewrite calculate_degenerate by assumption. subst ld.
    now rewrite Rneqb_false.
  - rewrite calculate_general by assumption.
    now rewrite Rneqb_true.
Qed.

(** ** Decay factors *)

Lemma exp_neg_le_1 (l time : R) : 0 <= l -> 0 <= time -> exp (- l * time) <= 1.
Proof.
  intros Hl Ht. rewrite <- exp_0. apply exp_le_mono. nra.
Qed.

(** ** Half-lives *)

Lemma exp_half_lives (T : R) (k : nat) :
  0 < T -> exp (- (ln 2 / T) * (INR k * T)) = / 2 ^ k.
Proof.
  intros HT.
  replace (- (ln 2 / T) * (INR k * T)) with (- (INR k * ln 2)) by (field; lra).
  rewrite exp_Ropp. f_equal.
  rewrite <- ln_pow by lra.
  apply exp_ln. apply pow_lt. lra.
Qed.

(** With the decay constant [ln 2 / T] of a half-life [T > 0], wherever
    the grid samples the time [k * T] the parent entry is the initial
    count halved [k] times. *)
Theorem parent_halves_every_half_life
    (ts : list R) (T ld n0p n0d : R) (k i : nat) :
  0 < T ->
  nth_error ts i = Some (INR k * T) ->
  exists N_parent N_daughter : list R,
    calculate_nuclei_population (Array ts) (ln 2 / T) ld (Scalar n0p) (Scalar n0d)
    = Ok (Array N_parent, Array N_daughter)
    /\ nth_error N_parent i = Some (n0p / 2 ^ k).
Proof.
  intros HT Hi.
  exists (map (parent_form (ln 2 / T) n0p) ts),
         (map (daughter_form (ln 2 / T) ld n0p n0d) ts).
  split; [apply calculate_scalar_counts|].
  rewrite (nth_error_map_some _ _ _ Hi).
  unfold parent_form. now rewrite exp_half_lives.
Qed.

Lemma parent_halves_every_half_life_witness :
  (0 < 1600 /\ nth_error [0; 4800] 1 = Some (INR 3 * 1600)) /\
  exists N_parent N_daughter : list R,
    calculate_nuclei_population (Array [0; 4800]) (ln 2 / 1600) 5
                                (Scalar 80) (Scalar 0)
    = Ok (Array N_parent, Array N_daughter)
    /\ nth_error N_parent 1 = Some (80 / 2 ^ 3).
Proof.
  assert (H : nth_error [0; 4800] 1 = Some (INR 3 * 1600)).
  { cbn [nth_error INR]. f_equal. lra. }
  split; [split; [lra | exact H]|].
  apply (@parent_halves_every_half_life [0; 4800] 1600 5 80 0 3 1);
    [lra | exact H].
Defined.

(** ** The equilibrium quotients and the populations *)

(** At the time [timeTo99PercentEquilibrium] returns for a positive
    decay constant, the parent computed with that constant has fallen to
    one hundredth of its initial count. *)
Theorem parent_at_equilibrium_time
    (ts : list R) (lp ld n0p n0d : R) (i : nat) :
  0 < lp ->
  exists years : R,
    timeTo99PercentEquilibrium lp = Ok years
    /\ (nth_error ts i = Some years ->
        exists N_parent N_daughter : list R,
          calculate_nuclei_population (Array ts) lp ld (Scalar n0p) (Scalar n0d)
          = Ok (Array N_parent, Array N_daughter)
          /\ nth_error N_parent i = Some (n0p * 0.01)).
Proof.
  intros Hlp. exists (- ln 0.01 / lp).
  split; [apply float_div_ok; lra|].
  intros Hi.
  exists (map (parent_form lp n0p) ts), (map (daughter_form lp ld n0p n0d) ts).
  split; [apply calculate_scalar_counts|].
  rewrite (nth_error_map_some _ _ _ Hi).
  unfold parent_form.
  replace (- lp * (- ln 0.01 / lp)) with (ln 0.01) by (field; lra).
  rewrite exp_ln by lra. reflexivity.
Qed.

Lemma parent_at_equilibrium_time_witness :
  0 < 2 /\
  exists years : R,
    timeTo99PercentEquilibrium 2 = Ok years
    /\ (nth_error [years] 0 = Some years ->
        exists N_parent N_daughter : list R,
          calculate_nuclei_population (Array [years]) 2 3 (Scalar 50) (Scalar 0)
          = Ok (Array N_parent, Array N_daughter)
          /\ nth_error N_parent 0 = Some (50 * 0.01)).
Proof.
  split; [lra|].
  destruct (@parent_at_equilibrium_time [- ln 0.01 / 2] 2 3 50 0 0)
    as (years & Hy & H); [lra|].
  assert (Hv : years = - ln 0.01 / 2).
  { unfold timeTo99PercentEquilibrium in Hy.
    rewrite float_div_ok in Hy by lra. now inversion Hy. }
  subst years. exists (- ln 0.01 / 2). split; assumption.
Defined.

(** For decay constants [ln 2 / T] of positive half-lives, the
    equilibrium ratio is the parent's half-life over the daughter's. *)
Theorem equilibrium_ratio_of_half_lives (T_parent T_daughter : R) :
  0 < T_parent -> 0 < T_daughter ->
  equilibriumRatio (ln 2 / T_parent) (ln 2 / T_daughter)
  = Ok (T_parent / T_daughter).
Proof.
  intros Hp Hd. pose proof ln_2_pos as H2.
  unfold equilibriumRatio.
  assert (Hpos : 0 < ln 2 / T_parent) by now apply Rdiv_lt_0_compat.
  rewrite float_div_ok by lra.
  f_equal. field. lra.
Qed.

Lemma equilibrium_ratio_of_half_lives_witness :
  (0 < 245500 /\ 0 < 75380)
  /\ equilibriumRatio (ln 2 / 245500) (ln 2 / 75380) = Ok (245500 / 75380).
Proof.
  split; [lra|].
  apply equilibrium_ratio_of_half_lives; lra.
Defined.

(** The ratios of two consecutive links multiply to the ratio of the
    chain's ends. *)
Theorem equilibrium_ratios_compose (l1 l2 l3 : R) :
  l1 <> 0 -> l2 <> 0 ->
  exists r12 r23 r13 : R,
    equilibriumRatio l1 l2 = Ok r12
    /\ equilibriumRatio l2 l3 = Ok r23
    /\ equilibriumRatio l1 l3 = Ok r13
    /\ r12 * r23 = r13.
Proof.
  intros H1 H2. unfold equilibriumRatio.
  exists (l2 / l1), (l3 / l2), (l3 / l1).
  rewrite !float_div_ok by assumption.
  repeat split. field. split; assumption.
Qed.

Lemma equilibrium_ratios_compose_witness :
  (1 <> 0 /\ 2 <> 0) /\
  exists r12 r23 r13 : R,
    equilibriumRatio 1 2 = Ok r12
    /\ equilibriumRatio 2 6 = Ok r23
    /\ equilibriumRatio 1 6 = Ok r13
    /\ r12 * r23 = r13.
Proof.
  split; [lra|].
  apply equilibrium_ratios_compose; lra.
Defined.

(** For the decay constant [ln 2 / T] of a positive half-life the time
    to 99% is [T * ln 100 / ln 2]: between 6.6436 and 6.644 half-lives. *)
Theorem equilibrium_time_in_half_lives (T : R) :
  0 < T ->
  exists years : R,
    timeTo99PercentEquilibrium (ln 2 / T) = Ok years
    /\ years = T * (ln 100 / ln 2)
    /\ 6.6436 * T < years < 6.644 * T.
Proof.
  intros HT. pose proof ln_2_pos as H2.
  destruct ln_2_bounds as [H2lo H2hi].
  destruct ln_hundred_bounds as [Hlo Hhi].
  assert (Hpos : 0 < ln 2 / T) by now apply Rdiv_lt_0_compat.
  exists (T * (ln 100 / ln 2)).
  split.
  - unfold timeTo99PercentEquilibrium.
    rewrite float_div_ok by lra. rewrite minus_ln_hundredth.
    f_equal. field. lra.
  - split; [reflexivity|].
    assert (Hq : 6.6436 < ln 100 / ln 2 < 6.644).
    { split.
      - apply Rmult_lt_reg_r with (ln 2); [assumption|].
        replace (ln 100 / ln 2 * ln 2) with (ln 100) by (field; lra). nra.
      - apply Rmult_lt_reg_r with (ln 2); [assumption|].
        replace (ln 100 / ln 2 * ln 2) with (ln 100) by (field; lra). nra. }
    nra.
Qed.

Lemma equilibrium_time_in_half_lives_witness :
  0 < 1600 /\
  exists years : R,
    timeTo99PercentEquilibrium (ln 2 / 1600) = Ok years
    /\ years = 1600 * (ln 100 / ln 2)
    /\ 6.6436 * 1600 < years < 6.644 * 1600.
Proof.
  split; [lra|].
  apply (@equilibrium_time_in_half_lives 1600). lra.
Defined.

(** ** Activities of a parent and its daughter *)

Lemma calculate_activity_series (g : R -> R) (ts : list R) (l : R) :
  calculate_activity (Array (map g ts)) l
  = Ok (Array (map (fun time => l * g time) ts)).
Proof.
  unfold calculate_activity, np_mul.
  rewrite broadcast_scalar_left. now rewrite map_map.
Qed.




(** ** Dependence on the initial counts *)

Lemma daughter_form_no_parent (lp ld n0d time : R) :
  daughter_form lp ld 0 n0d time = n0d * exp (- ld * time).
Proof.
  destruct (Req_dec_T lp ld) as [Heq|Hne].
  - subst ld. rewrite daughter_form_degenerate.
    unfold bateman_degenerate. ring.
  - rewrite daughter_form_general by assumption.
    unfold bateman_general. field. lra.
Qed.

(** Without parent nuclei the parent series is zero everywhere and the
    daughter series is the daughter's own exponential decay, in either
    branch. *)
Theorem no_parent_leaves_daughter_decay (ts : list R) (lp ld n0d : R) :
  exists N_parent N_daughter : list R,
    calculate_nuclei_population (Array ts) lp ld (Scalar 0) (Scalar n0d)
    = Ok (Array N_parent, Array N_daughter)
    /\ forall (i : nat) (time : R),
         nth_error ts i = Some time ->
         nth_error N_parent i = Some 0
         /\ nth_error N_daughter i = Some (n0d * exp (- ld * time)).
Proof.
  exists (map (parent_form lp 0) ts), (map (daughter_form lp ld 0 n0d) ts).
  split; [apply calculate_scalar_counts|].
  intros i time Hi.
  rewrite !(nth_error_map_some _ _ _ Hi).
  rewrite daughter_form_no_parent.
  split; [|reflexivity].
  unfold parent_form. now rewrite Rmult_0_l.
Qed.

Lemma daughter_form_linear (lp ld k n0p n0d m0p m0d time : R) :
  daughter_form lp ld (k * n0p + m0p) (k * n0d + m0d) time
  = k * daughter_form lp ld n0p n0d time + daughter_form lp ld m0p m0d time.
Proof.
  destruct (Req_dec_T lp ld) as [Heq|Hne].
  - subst ld. rewrite !daughter_form_degenerate.
    unfold bateman_degenerate. ring.
  - rewrite !daughter_form_general by assumption.
    unfold bateman_general. field. lra.
Qed.

(** Both series are linear in the pair of initial counts: the series
    for the counts [k * n + m] are [k] times the series for [n] plus the
    series for [m], entry by entry. *)
Theorem populations_linear_in_counts
    (ts : list R) (lp ld k n0p n0d m0p m0d : R) :
  exists P D Pn Dn Pm Dm : list R,
    calculate_nuclei_population (Array ts) lp ld
      (Scalar (k * n0p + m0p)) (Scalar (k * n0d + m0d)) = Ok (Array P, Array D)
    /\ calculate_nuclei_population (Array ts) lp ld (Scalar n0p) (Scalar n0d)
       = Ok (Array Pn, Array Dn)
    /\ calculate_nuclei_population (Array ts) lp ld (Scalar m0p) (Scalar m0d)
       = Ok (Array Pm, Array Dm)
    /\ forall (i : nat) (time : R),
         nth_error ts i = Some time ->
         exists p d pn dn pm dm : R,
           nth_error P i = Some p /\ nth_error D i = Some d
           /\ nth_error Pn i = Some pn /\ nth_error Dn i = Some dn
           /\ nth_error Pm i = Some pm /\ nth_error Dm i = Some dm
           /\ p = k * pn + pm /\ d = k * dn + dm.
Proof.
  do 6 eexists.
  split; [apply calculate_scalar_counts|].
  split; [apply calculate_scalar_counts|].
  split; [apply calculate_scalar_counts|].
  intros i time Hi.
  exists (parent_form lp (k * n0p + m0p) time),
         (daughter_form lp ld (k * n0p + m0p) (k * n0d + m0d) time),
         (parent_form lp n0p time), (daughter_form lp ld n0p n0d time),
         (parent_form lp m0p time), (daughter_form lp ld m0p m0d time).
  do 6 (split; [now apply nth_error_map_some|]).
  split.
  - unfold parent_form. ring.
  - apply daughter_form_linear.
Qed.

(** ** The chain on any grid *)

(** The three chained calls succeed on every grid, for all decay
    constants and scalar initial counts, and each of the six series they
    return has one entry for each time of the grid. *)
Theorem chain_returns_six_aligned_series
    (ts : list R) (l1 l2 l3 l4 n1 n2 n3 n4 : R) :
  exists U Th Th_from_U Ra Ra_from_Th Rn : list R,
    chain_evaluation (Array ts) l1 l2 l3 l4 n1 n2 n3 n4
    = Ok (Populations (Array U) (Array Th) (Array Th_from_U)
                      (Array Ra) (Array Ra_from_Th) (Array Rn))
    /\ length U = length ts /\ length Th = length ts
    /\ length Th_from_U = length ts /\ length Ra = length ts
    /\ length Ra_from_Th = length ts /\ length Rn = length ts.
Proof.
  rewrite chain_on_grid. do 6 eexists.
  split; [reflexivity|].
  repeat split; apply length_map.
Qed.

Section ChainOfValidLinks.

Variables l1 l2 l3 l4 n1 n2 n3 n4 : R.
Hypothesis l1_pos : 0 < l1.
Hypothesis l2_pos : 0 < l2.
Hypothesis l3_pos : 0 < l3.
Hypothesis l4_pos : 0 < l4.
Hypothesis n1_nonneg : 0 <= n1.
Hypothesis n2_nonneg : 0 <= n2.
Hypothesis n3_nonneg : 0 <= n3.
Hypothesis n4_nonneg : 0 <= n4.

Let dTh := daughter_form l1 l2 n1 n2.
Let dRa := fun time => daughter_form l2 l3 (dTh time) n3 time.
Let dRn := fun time => daughter_form l3 l4 (dRa time) n4 time.

Lemma chain_dTh_nonneg (time : R) : 0 <= time -> 0 <= dTh time.
Proof. intros Ht. now apply daughter_form_nonneg. Qed.

Lemma chain_dRa_nonneg (time : R) : 0 <= time -> 0 <= dRa time.
Proof.
  intros Ht. apply daughter_form_nonneg; try assumption.
  now apply chain_dTh_nonneg.
Qed.

Lemma chain_dRn_nonneg (time : R) : 0 <= time -> 0 <= dRn time.
Proof.
  intros Ht. apply daughter_form_nonneg; try assumption.
  now apply chain_dRa_nonneg.
Qed.

Lemma attenuated_le (l x time : R) :
  0 < l -> 0 <= x -> 0 <= time -> parent_form l x time <= x.
Proof.
  intros Hl Hx Ht. unfold parent_form.
  pose proof (@exp_neg_le_1 l time) as H1.
  assert (exp (- l * time) <= 1) by (apply H1; lra).
  nra.
Qed.

(** For positive decay constants and non-negative initial counts, at
    every index whose time is non-negative the six entries of the chain
    are non-negative; wherever the time is 0 the series of each nuclide
    holds its initial count. *)
Theorem chain_series_nonnegative (ts : list R) :
  exists U Th Th_from_U Ra Ra_from_Th Rn : list R,
    chain_evaluation (Array ts) l1 l2 l3 l4 n1 n2 n3 n4
    = Ok (Populations (Array U) (Array Th) (Array Th_from_U)
                      (Array Ra) (Array Ra_from_Th) (Array Rn))
    /\ forall (i : nat) (time : R),
         nth_error ts i = Some time -> 0 <= time ->
         exists u th thu ra rath rn : R,
           nth_error U i = Some u /\ nth_error Th i = Some th
           /\ nth_error Th_from_U i = Some thu /\ nth_error Ra i = Some ra
           /\ nth_error Ra_from_Th i = Some rath /\ nth_error Rn i = Some rn
           /\ (0 <= u /\ 0 <= th /\ 0 <= thu /\ 0 <= ra /\ 0 <= rath /\ 0 <= rn)
           /\ (time = 0 ->
               u = n1 /\ th = n2 /\ thu = n2 /\ ra = n3 /\ rath = n3 /\ rn = n4).
Proof.
  rewrite chain_on_grid. fold dTh. fold dRa. fold dRn.
  do 6 eexists. split; [reflexivity|].
  intros i time Hi Ht.
  exists (parent_form l1 n1 time), (dTh time), (parent_form l2 (dTh time) time),
         (dRa time), (parent_form l3 (dRa time) time), (dRn time).
  do 6 (split; [rewrite nth_error_map, Hi; reflexivity|]).
  pose proof (chain_dTh_nonneg Ht). pose proof (chain_dRa_nonneg Ht).
  pose proof (chain_dRn_nonneg Ht).
  split.
  - repeat split; try assumption; now apply parent_form_nonneg.
  - intros ->. unfold dRn, dRa, dTh.
    rewrite !daughter_form_at_zero, !parent_form_at_zero.
    repeat split; reflexivity.
Qed.

(** The parent series returned by the second and the third link is the
    daughter series of the link before, multiplied at each index by the
    link's own decay factor; for positive decay constants, non-negative
    counts and a non-negative time it does not exceed that series. *)
Theorem chain_returned_parent_is_attenuated (ts : list R) :
  exists U Th Th_from_U Ra Ra_from_Th Rn : list R,
    chain_evaluation (Array ts) l1 l2 l3 l4 n1 n2 n3 n4
    = Ok (Populations (Array U) (Array Th) (Array Th_from_U)
                      (Array Ra) (Array Ra_from_Th) (Array Rn))
    /\ forall (i : nat) (time : R),
         nth_error ts i = Some time ->
         exists th thu ra rath : R,
           nth_error Th i = Some th /\ nth_error Th_from_U i = Some thu
           /\ nth_error Ra i = Some ra /\ nth_error Ra_from_Th i = Some rath
           /\ thu = th * exp (- l2 * time)
           /\ rath = ra * exp (- l3 * time)
           /\ (0 <= time -> thu <= th /\ rath <= ra).
Proof.
  rewrite chain_on_grid. fold dTh. fold dRa. fold dRn.
  do 6 eexists. split; [reflexivity|].
  intros i time Hi.
  exists (dTh time), (parent_form l2 (dTh time) time),
         (dRa time), (parent_form l3 (dRa time) time).
  do 4 (split; [rewrite nth_error_map, Hi; reflexivity|]).
  split; [reflexivity|]. split; [reflexivity|].
  intros Ht. split; apply attenuated_le; try assumption.
  - now apply chain_dTh_nonneg.
  - now apply chain_dRa_nonneg.
Qed.

End ChainOfValidLinks.

Lemma chain_series_nonnegative_witness :
  (0 < 1 /\ 0 < 2 /\ 0 < 3 /\ 0 < 4 /\ 0 <= 9 /\ 0 <= 0 /\ 0 <= 0 /\ 0 <= 0) /\
  exists U Th Th_from_U Ra Ra_from_Th Rn : list R,
    chain_evaluation (Array [0; 5]) 1 2 3 4 9 0 0 0
    = Ok (Populations (Array U) (Array Th) (Array Th_from_U)
                      (Array Ra) (Array Ra_from_Th) (Array Rn))
    /\ forall (i : nat) (time : R),
         nth_error [0; 5] i = Some time -> 0 <= time ->
         exists u th thu ra rath rn : R,
           nth_error U i = Some u /\ nth_error Th i = Some th
           /\ nth_error Th_from_U i = Some thu /\ nth_error Ra i = Some ra
           /\ nth_error Ra_from_Th i = Some rath /\ nth_error Rn i = Some rn
           /\ (0 <= u /\ 0 <= th /\ 0 <= thu /\ 0 <= ra /\ 0 <= rath /\ 0 <= rn)
           /\ (time = 0 ->
               u = 9 /\ th = 0 /\ thu = 0 /\ ra = 0 /\ rath = 0 /\ rn = 0).
Proof.
  split; [lra|].
  apply (@chain_series_nonnegative 1 2 3 4 9 0 0 0); lra.
Defined.

Lemma chain_returned_parent_is_attenuated_witness :
  (0 < 1 /\ 0 < 2 /\ 0 < 3 /\ 0 <= 9 /\ 0 <= 0 /\ 0 <= 0) /\
  exists U Th Th_from_U Ra Ra_from_Th Rn : list R,
    chain_evaluation (Array [0; 5]) 1 2 3 4 9 0 0 0
    = Ok (Populations (Array U) (Array Th) (Array Th_from_U)
                      (Array Ra) (Array Ra_from_Th) (Array Rn))
    /\ forall (i : nat) (time : R),
         nth_error [0; 5] i = Some time ->
         exists th thu ra rath : R,
           nth_error Th i = Some th /\ nth_error Th_from_U i = Some thu
           /\ nth_error Ra i = Some ra /\ nth_error Ra_from_Th i = Some rath
           /\ thu = th * exp (- 2 * time)
           /\ rath = ra * exp (- 3 * time)
           /\ (0 <= time -> thu <= th /\ rath <= ra).
Proof.
  split; [lra|].
  apply (@chain_returned_parent_is_attenuated 1 2 3 4 9 0 0 0); lra.
Defined.

(** ** The activities of the chain *)

(** The four activities computed from the populations of the chain, on
    any grid: those of the first, second and fourth nuclide are the decay
    constant times the nuclide's series at each index; the one of the
    third nuclide is read from the parent series returned by the third
    link, so it is the decay constant times the third nuclide's series
    times the decay factor [exp (- l3 * t)]. *)
Theorem chain_activities (ts : list R) (l1 l2 l3 l4 n1 n2 n3 n4 : R) :
  exists (p : populations) (U Th Ra Rn AU ATh ARa ARn : list R),
    chain_evaluation (Array ts) l1 l2 l3 l4 n1 n2 n3 n4 = Ok p
    /\ N_U234 p = Array U /\ N_Th230 p = Array Th
    /\ N_Ra226 p = Array Ra /\ N_Rn222 p = Array Rn
    /\ activity_evaluation p l1 l2 l3 l4
       = Ok (Activities (Array AU) (Array ATh) (Array ARa) (Array ARn))
    /\ forall (i : nat) (time : R),
         nth_error ts i = Some time ->
         exists u th ra rn : R,
           nth_error U i = Some u /\ nth_error Th i = Some th
           /\ nth_error Ra i = Some ra /\ nth_error Rn i = Some rn
           /\ nth_error AU i = Some (l1 * u)
           /\ nth_error ATh i = Some (l2 * th)
           /\ nth_error ARa i = Some (l3 * (ra * exp (- l3 * time)))
           /\ nth_error ARn i = Some (l4 * rn).
Proof.
  rewrite chain_on_grid.
  set (dTh := daughter_form l1 l2 n1 n2).
  set (dRa := fun time => daughter_form l2 l3 (dTh time) n3 time).
  set (dRn := fun time => daughter_form l3 l4 (dRa time) n4 time).
  eexists. do 8 eexists.
  split; [reflexivity|].
  cbn [N_U234 N_Th230 N_Ra226 N_Rn222 N_Ra226_from_Th].
  do 4 (split; [reflexivity|]).
  split.
  - unfold activity_evaluation.
    cbn [N_U234 N_Th230 N_Ra226 N_Rn222 N_Ra226_from_Th].
    rewrite !calculate_activity_series. cbn [bind]. reflexivity.
  - intros i time Hi.
    exists (parent_form l1 n1 time), (dTh time), (dRa time), (dRn time).
    do 7 (split; [rewrite nth_error_map, Hi; reflexivity|]).
    rewrite nth_error_map, Hi. reflexivity.
Qed.

(** ** The time grid *)

Lemma linspace_entry_inv (start stop : R) (num i : nat) (ti : R) :
  (2 <= num)%nat ->
  nth_error (linspace start stop num) i = Some ti ->
  (i < num)%nat /\ ti = INR i * ((stop - start) / INR (num - 1)) + start.
Proof.
  intros Hnum Hi.
  assert (Hlt : (i < num)%nat).
  { rewrite <- (linspace_length start stop num).
    apply nth_error_Some. now rewrite Hi. }
  split; [assumption|].
  rewrite linspace_entry in Hi by assumption.
  now inversion Hi.
Qed.

Lemma linspace_step_nonneg (start stop : R) (num : nat) :
  (2 <= num)%nat -> start <= stop ->
  0 < INR (num - 1) /\ 0 <= (stop - start) / INR (num - 1).
Proof.
  intros Hnum Hle.
  assert (Hpos : 0 < INR (num - 1)) by (apply lt_0_INR; lia).
  split; [assumption|].
  apply Rmult_le_pos; [lra | left; now apply Rinv_0_lt_compat].
Qed.

Lemma linspace_lower (start stop : R) (num i : nat) (ti : R) :
  (2 <= num)%nat -> start <= stop ->
  nth_error (linspace start stop num) i = Some ti -> start <= ti.
Proof.
  intros Hnum Hle Hi.
  destruct (linspace_entry_inv _ _ _ Hnum Hi) as [_ ->].
  destruct (linspace_step_nonneg Hnum Hle) as [_ Hstep].
  pose proof (pos_INR i). nra.
Qed.

(** [linspace start stop num], for at least two samples and
    [start <= stop], has [num] entries, begins with [start], ends with
    [stop], and never decreases: an entry at a later index is at least the
    entry at an earlier one, strictly more when [start < stop], and all
    entries lie between the two ends. *)
Theorem linspace_endpoints_and_order (start stop : R) (num : nat) :
  (2 <= num)%nat -> start <= stop ->
  length (linspace start stop num) = num
  /\ nth_error (linspace start stop num) 0 = Some start
  /\ nth_error (linspace start stop num) (num - 1) = Some stop
  /\ forall (i j : nat) (ti tj : R),
       nth_error (linspace start stop num) i = Some ti ->
       nth_error (linspace start stop num) j = Some tj ->
       (i <= j)%nat ->
       start <= ti /\ ti <= tj /\ tj <= stop
       /\ (start < stop -> (i < j)%nat -> ti < tj).
Proof.
  intros Hnum Hle.
  destruct (linspace_step_nonneg Hnum Hle) as [Hden Hstep].
  assert (Hfull : INR (num - 1) * ((stop - start) / INR (num - 1)) = stop - start)
    by (field; lra).
  split; [apply linspace_length|].
  split.
  { rewrite linspace_entry by lia. f_equal. simpl. ring. }
  split.
  { rewrite linspace_entry by lia. f_equal. lra. }
  intros i j ti tj Hi Hj Hij.
  pose proof (linspace_lower _ Hnum Hle Hi) as Hlow.
  destruct (linspace_entry_inv _ _ _ Hnum Hi) as [Hilt ->].
  destruct (linspace_entry_inv _ _ _ Hnum Hj) as [Hjlt ->].
  assert (Hinr : INR i <= INR j) by now apply le_INR.
  assert (Hjmax : INR j <= INR (num - 1)) by (apply le_INR; lia).
  split; [assumption|].
  split; [nra|].
  split; [nra|].
  intros Hlt Hij'.
  assert (Hstep' : 0 < (stop - start) / INR (num - 1))
    by (apply Rdiv_lt_0_compat; lra).
  assert (INR i < INR j) by now apply lt_INR.
  nra.
Qed.

Lemma linspace_endpoints_and_order_witness :
  ((2 <= 3)%nat /\ 0 <= 10) /\
  (length (linspace 0 10 3) = 3%nat
   /\ nth_error (linspace 0 10 3) 0 = Some 0
   /\ nth_error (linspace 0 10 3) (3 - 1) = Some 10
   /\ forall (i j : nat) (ti tj : R),
        nth_error (linspace 0 10 3) i = Some ti ->
        nth_error (linspace 0 10 3) j = Some tj ->
        (i <= j)%nat ->
        0 <= ti /\ ti <= tj /\ tj <= 10
        /\ (0 < 10 -> (i < j)%nat -> ti < tj)).
Proof.
  split; [split; [lia | lra]|].
  apply (@linspace_endpoints_and_order 0 10 3); [lia | lra].
Defined.

(** ** The evaluation of the script *)

Lemma grid_points_ge_2 : (2 <= grid_points)%nat.
Proof. apply Nat.leb_le. reflexivity. Qed.

Lemma t_grid_nonneg (i : nat) (time : R) :
  nth_error t_grid i = Some time -> 0 <= time.
Proof.
  intros Hi. unfold t_grid in Hi.
  apply (linspace_lower i grid_points_ge_2 (start := 0) (stop := 500000));
    [lra | exact Hi].
Qed.

Lemma t_grid_first : nth_error t_grid 0 = Some 0.
Proof.
  unfold t_grid. rewrite linspace_entry.
  - f_equal. simpl. ring.
  - apply grid_points_ge_2.
  - pose proof grid_points_ge_2. lia.
Qed.

Lemma lambda_of_half_life_pos (T : R) : 0 < T -> 0 < ln 2 / T.
Proof. intros HT. apply Rdiv_lt_0_compat; [apply ln_2_pos | assumption]. Qed.

Lemma nth_error_map_inv (f : R -> R) (ts : list R) (i : nat) (x : R) :
  nth_error (map f ts) i = Some x ->
  exists time : R, nth_error ts i = Some time /\ x = f time.
Proof.
  rewrite nth_error_map. destruct (nth_error ts i) as [time|]; simpl.
  - intros H. exists time. split; [reflexivity | now inversion H].
  - discriminate.
Qed.

(** The script's three calls succeed.  Each of the six series has 10000
    entries, none of them negative; the series of U-234 begins with
    100000 and those of Th-230, Ra-226 and Rn-222 begin with 0. *)
Theorem script_populations_well_formed :
  exists U Th Th_from_U Ra Ra_from_Th Rn : list R,
    script_populations
    = Ok (Populations (Array U) (Array Th) (Array Th_from_U)
                      (Array Ra) (Array Ra_from_Th) (Array Rn))
    /\ (forall s : list R,
          In s [U; Th; Th_from_U; Ra; Ra_from_Th; Rn] ->
          Z.of_nat (length s) = 10000%Z
          /\ forall (i : nat) (x : R), nth_error s i = Some x -> 0 <= x)
    /\ nth_error U 0 = Some 100000
    /\ nth_error Th 0 = Some 0
    /\ nth_error Ra 0 = Some 0
    /\ nth_error Rn 0 = Some 0.
Proof.
  unfold script_populations, t. rewrite chain_on_grid.
  set (dTh := daughter_form lambda_U234 lambda_Th230 N0_U234 N0_Th230).
  set (dRa := fun time => daughter_form lambda_Th230 lambda_Ra226 (dTh time) N0_Ra226 time).
  set (dRn := fun time => daughter_form lambda_Ra226 lambda_Rn222 (dRa time) N0_Rn222 time).
  assert (HlU : 0 < lambda_U234)
    by (apply lambda_of_half_life_pos; unfold T_half_U234; lra).
  assert (HlTh : 0 < lambda_Th230)
    by (apply lambda_of_half_life_pos; unfold T_half_Th230; lra).
  assert (HlRa : 0 < lambda_Ra226)
    by (apply lambda_of_half_life_pos; unfold T_half_Ra226; lra).
  assert (HlRn : 0 < lambda_Rn222)
    by (apply lambda_of_half_life_pos; unfold T_half_Rn222; lra).
  assert (HnU : 0 <= N0_U234) by (unfold N0_U234; lra).
  assert (HnTh : 0 <= N0_Th230) by (unfold N0_Th230; lra).
  assert (HnRa : 0 <= N0_Ra226) by (unfold N0_Ra226; lra).
  assert (HnRn : 0 <= N0_Rn222) by (unfold N0_Rn222; lra).
  assert (HdTh : forall time, 0 <= time -> 0 <= dTh time)
    by (intros time Ht; now apply chain_dTh_nonneg).
  assert (HdRa : forall time, 0 <= time -> 0 <= dRa time)
    by (intros time Ht; unfold dRa, dTh; now apply chain_dRa_nonneg).
  assert (HdRn : forall time, 0 <= time -> 0 <= dRn time)
    by (intros time Ht; unfold dRn, dRa, dTh; now apply chain_dRn_nonneg).
  assert (Hlen : forall f : R -> R, Z.of_nat (length (map f t_grid)) = 10000%Z).
  { intros f. rewrite length_map, t_grid_length. reflexivity. }
  assert (Hentry : forall f : R -> R,
             (forall time, 0 <= time -> 0 <= f time) ->
             forall (i : nat) (x : R),
               nth_error (map f t_grid) i = Some x -> 0 <= x).
  { intros f Hf i x Hx.
    destruct (nth_error_map_inv _ _ _ Hx) as (time & Hi & ->).
    apply Hf. now apply t_grid_nonneg with i. }
  do 6 eexists. split; [reflexivity|].
  split.
  - intros s Hs. cbn [In] in Hs.
    destruct Hs as [<-|[<-|[<-|[<-|[<-|[<-|[]]]]]]];
      (split; [apply Hlen | apply Hentry; intros time Ht]).
    + now apply parent_form_nonneg.
    + now apply HdTh.
    + apply parent_form_nonneg. now apply HdTh.
    + now apply HdRa.
    + apply parent_form_nonneg. now apply HdRa.
    + now apply HdRn.
  - pose proof t_grid_first as H0.
    rewrite !(nth_error_map_some _ _ _ H0).
    unfold dRn, dRa, dTh.
    rewrite !daughter_form_at_zero, parent_form_at_zero.
    unfold N0_U234, N0_Th230, N0_Ra226, N0_Rn222.
    repeat split; reflexivity.
Qed.

(** ** A daughter count that does not fit the grid *)

(** An array for [N0_daughter] whose length differs from the grid's,
    neither being one, is refused as well, in either branch: the parent
    series and the growth term are computed, then the product of
    [N0_daughter] with the decay factor raises numpy's broadcasting
    error. *)
Theorem population_daughter_shape_mismatch
    (ts ds : list R) (lp ld n0p : R) :
  length ds <> length ts -> length ds <> 1%nat -> length ts <> 1%nat ->
  calculate_nuclei_population (Array ts) lp ld (Scalar n0p) (Array ds)
  = Err ValueError.
Proof.
  intros Hne Hd Ht.
  assert (Hrefuse : forall g : R -> R,
             broadcast Rmult (Array ds) (Array (map g ts)) = Err ValueError).
  { intros g. apply broadcast_refused; now rewrite ?length_map. }
  unfold calculate_nuclei_population, np_mul, np_add, np_sub, np_exp, np_div.
  destruct (Req_dec_T lp ld) as [Heq|Hneq].
  - subst ld. rewrite Rneqb_false.
    repeat first
      [ rewrite broadcast_scalars
      | rewrite broadcast_scalar_left
      | rewrite broadcast_aligned
      | rewrite map_map
      | rewrite Hrefuse
      | progress cbn [bind elementwise] ].
    reflexivity.
  - rewrite (Rneqb_true Hneq).
    repeat first
      [ rewrite broadcast_scalars
      | rewrite broadcast_scalar_left
      | rewrite broadcast_aligned
      | rewrite map_map
      | rewrite Rzerob_false by lra
      | rewrite Hrefuse
      | progress cbn [bind elementwise has_zero] ].
    reflexivity.
Qed.

Lemma population_daughter_shape_mismatch_witness :
  (length [7; 8; 9] <> length [0; 1]
   /\ length [7; 8; 9] <> 1%nat /\ length [0; 1] <> 1%nat)
  /\ calculate_nuclei_population (Array [0; 1]) 1 2 (Scalar 5) (Array [7; 8; 9])
     = Err ValueError.
Proof.
  split; [repeat split; simpl; lia|].
  apply population_daughter_shape_mismatch; simpl; lia.
Defined.
